(** * ssa-demo: scrape, filter, download, deduplicate

    A shallow embedding of the Python sources [config.py], [database.py],
    [utils.py] and [main.py], and the properties of the pipeline they
    implement.

    Conventions of the embedding.
    - Python [str] is [string]; [bytes] is [list byte].
    - A function that touches the outside world (SQLite files, the file
      system, the network) is a state transformer over [world] returning a
      [result]: [Ok v] for a normal return, [Raise e] for an exception that
      leaves the function.
    - What the outside world answers (HTTP responses, the clock, generated
      identifiers) is an explicit argument. *)

From Stdlib Require Import ZArith Ascii String List Bool Lia.
From Stdlib.Strings Require Import Byte.
From stdpp Require Import base option gmap strings list fin_maps.

Open Scope string_scope.

(* ===================================================================== *)
(** * Exceptions and results                                              *)
(* ===================================================================== *)

(** The exception classes the sources name or can meet. *)
Inductive exn : Type :=
| OperationalError        (* sqlite3: no such table, ... *)
| RequestError            (* httpx: connection refused, DNS, timeout, read error *)
| HTTPStatusError (status : Z)   (* httpx: raise_for_status on a non-2xx answer *)
| ValueError              (* urllib.parse on a malformed URL; zip(strict=True) *)
| KeyError                (* kwargs["headers"] without a headers argument *)
| OSError                 (* os.makedirs / open failures *)
| OtherException.         (* any other subclass of Exception *)

Inductive result (A : Type) : Type :=
| Ok (a : A)
| Raise (e : exn).
Arguments Ok {A} a.
Arguments Raise {A} e.

(* ===================================================================== *)
(** * config.py                                                           *)
(* ===================================================================== *)

Module AppSettings.

Definition DB_FILE : string := "ssa.db".
Definition DOWNLOAD_DIR : string := "pdf_downloads".

End AppSettings.

(* ===================================================================== *)
(** * The world                                                           *)
(* ===================================================================== *)

(** One row of the table [seen_pdfs]. [first_seen_utc] is the instant of
    insertion, counted in microseconds since the epoch. *)
Record SeenPdfRecord : Type := {
  hash : string;
  source_url : string;
  first_seen_utc : Z
}.

(** A SQLite database file, as far as this program looks at it: [None] when
    the file holds no table [seen_pdfs], [Some rows] when it does, the rows
    in insertion order. *)
Definition database : Type := option (list SeenPdfRecord).

Record world : Type := {
  environ : gmap string string;       (* os.environ *)
  dbs : gmap string database;         (* SQLite database files, by path *)
  files : gmap string (list byte);    (* regular files, by path *)
  dirs : gset string                  (* directories, by path *)
}.

Definition with_dbs (w : world) (d : gmap string database) : world :=
  {| environ := environ w; dbs := d; files := files w; dirs := dirs w |}.

Definition with_files (w : world) (f : gmap string (list byte)) : world :=
  {| environ := environ w; dbs := dbs w; files := f; dirs := dirs w |}.

Definition with_dirs (w : world) (d : gset string) : world :=
  {| environ := environ w; dbs := dbs w; files := files w; dirs := d |}.

(* ===================================================================== *)
(** * database.py                                                         *)
(* ===================================================================== *)

(** SQLite opens a private temporary database, gone when the connection is
    closed, for the empty file name and for [":memory:"]. *)
Definition is_private (path : string) : bool :=
  String.eqb path "" || String.eqb path ":memory:".

(** [sqlite3.connect(path)]: a named database file that does not exist is
    created empty. Paths are taken to be openable; two paths are the same
    file exactly when they are the same string. *)
Definition connect (path : string) (w : world) : world :=
  if is_private path then w
  else match dbs w !! path with
       | Some _ => w
       | None => with_dbs w (<[path := None]> (dbs w))
       end.

(** The table a connection to [path] sees. *)
Definition seen_pdfs (path : string) (w : world) : database :=
  if is_private path then None
  else match dbs w !! path with
       | Some db => db
       | None => None
       end.

(** [os.environ.get(AppSettings.DB_FILE.value, "ssa.db")]: the variable
    looked up is the one NAMED by the setting's value. *)
Definition db_file (w : world) : string :=
  match environ w !! AppSettings.DB_FILE with
  | Some v => v
  | None => "ssa.db"
  end.

(** [CREATE TABLE IF NOT EXISTS seen_pdfs (...)], committed. On a private
    database the table dies with the connection. *)
Definition setup_database (w : world) : result unit * world :=
  let path := db_file w in
  let w1 := connect path w in
  if is_private path then (Ok tt, w1)
  else match seen_pdfs path w1 with
       | Some _ => (Ok tt, w1)
       | None => (Ok tt, with_dbs w1 (<[path := Some []]> (dbs w1)))
       end.

(** [SELECT 1 FROM seen_pdfs WHERE hash = ?] and [fetchone() is not None]. *)
Definition select_hash (pdf_hash : string) (rows : list SeenPdfRecord) : bool :=
  existsb (fun r => String.eqb (hash r) pdf_hash) rows.

Definition hash_exists (pdf_hash : string) (w : world) : result bool * world :=
  let w1 := connect AppSettings.DB_FILE w in
  match seen_pdfs AppSettings.DB_FILE w1 with
  | Some rows => (Ok (select_hash pdf_hash rows), w1)
  | None => (Raise OperationalError, w1)
  end.

(** [INSERT OR IGNORE INTO seen_pdfs ...]: the row is appended unless it
    would break the PRIMARY KEY constraint on [hash], in which case the
    statement does nothing. *)
Definition insert_or_ignore (r : SeenPdfRecord) (rows : list SeenPdfRecord)
  : list SeenPdfRecord :=
  if select_hash (hash r) rows then rows else rows ++ [r].

(** [now] is what [datetime.now(tz=timezone.utc)] answers. *)
Definition add_hash (now : Z) (pdf_hash pdf_url : string) (w : world)
  : result unit * world :=
  let w1 := connect AppSettings.DB_FILE w in
  match seen_pdfs AppSettings.DB_FILE w1 with
  | Some rows =>
      let r := {| hash := pdf_hash; source_url := pdf_url; first_seen_utc := now |} in
      (Ok tt, with_dbs w1 (<[AppSettings.DB_FILE := Some (insert_or_ignore r rows)]> (dbs w1)))
  | None => (Raise OperationalError, w1)
  end.

(** The records of the store the read and write operations address, and
    the PRIMARY KEY invariant on them. *)
Definition records (w : world) : list SeenPdfRecord :=
  match seen_pdfs AppSettings.DB_FILE w with
  | Some rows => rows
  | None => []
  end.

Definition records_with (pdf_hash : string) (rows : list SeenPdfRecord)
  : list SeenPdfRecord :=
  filter (fun r => hash r = pdf_hash) rows.

Definition unique_hashes (rows : list SeenPdfRecord) : Prop :=
  NoDup (map hash rows).

Definition store_ready (w : world) : Prop :=
  exists rows, seen_pdfs AppSettings.DB_FILE w = Some rows /\ unique_hashes rows.

Definition with_environ (w : world) (e : gmap string string) : world :=
  {| environ := e; dbs := dbs w; files := files w; dirs := dirs w |}.

(** The table exists in the file the read and write operations open. *)
Definition store_initialised (w : world) : Prop :=
  is_Some (seen_pdfs AppSettings.DB_FILE w).


(* ===================================================================== *)
(** * utils.py: the Content Hasher                                        *)
(* ===================================================================== *)

(** [hashlib.sha256], written out after FIPS 180-4. Words are integers in
    [0, 2^32); additions wrap. *)
Module SHA256.

Local Open Scope Z_scope.

Definition wrap (x : Z) : Z := x mod 2 ^ 32.
Definition add32 (x y : Z) : Z := wrap (x + y).
Definition rotr (n x : Z) : Z := wrap (Z.lor (Z.shiftr x n) (Z.shiftl x (32 - n))).
Definition shr (n x : Z) : Z := Z.shiftr x n.
Definition not32 (x : Z) : Z := Z.lxor x 0xffffffff.

Definition Ch (x y z : Z) : Z := Z.lxor (Z.land x y) (Z.land (not32 x) z).
Definition Maj (x y z : Z) : Z :=
  Z.lxor (Z.lxor (Z.land x y) (Z.land x z)) (Z.land y z).
Definition bsig0 (x : Z) : Z := Z.lxor (Z.lxor (rotr 2 x) (rotr 13 x)) (rotr 22 x).
Definition bsig1 (x : Z) : Z := Z.lxor (Z.lxor (rotr 6 x) (rotr 11 x)) (rotr 25 x).
Definition ssig0 (x : Z) : Z := Z.lxor (Z.lxor (rotr 7 x) (rotr 18 x)) (shr 3 x).
Definition ssig1 (x : Z) : Z := Z.lxor (Z.lxor (rotr 17 x) (rotr 19 x)) (shr 10 x).

(** The constants are taken from the primes, as the standard defines
    them: the first 32 bits of the fractional parts of the cube roots (for
    [K]) and of the square roots (for [H0]) of the first primes. *)
Definition is_prime (p : Z) : bool :=
  (2 <=? p) && forallb (fun d => negb (p mod d =? 0)) (map Z.of_nat (seq 2 (Z.to_nat p - 2))).

Definition primes_below (n : nat) : list Z :=
  List.filter is_prime (map Z.of_nat (seq 0 n)).

(** The greatest [r] in [lo, hi) with [r ^ 3 <= n], by bisection. *)
Fixpoint cube_root_between (fuel : nat) (lo hi n : Z) : Z :=
  match fuel with
  | O => lo
  | S fuel' =>
      if hi - lo <=? 1 then lo
      else let mid := (lo + hi) / 2 in
           if mid ^ 3 <=? n then cube_root_between fuel' mid hi n
           else cube_root_between fuel' lo mid n
  end.

Definition cube_root_fraction (p : Z) : Z :=
  cube_root_between 40 0 (2 ^ 35) (p * 2 ^ 96) mod 2 ^ 32.

Definition square_root_fraction (p : Z) : Z :=
  Z.sqrt (p * 2 ^ 64) mod 2 ^ 32.

Definition K : list Z :=
  Eval vm_compute in map cube_root_fraction (primes_below 312).

(** The eight working variables, and the chaining value. *)
Record state : Type := {
  va : Z; vb : Z; vc : Z; vd : Z; ve : Z; vf : Z; vg : Z; vh : Z
}.

Definition state_of_list (l : list Z) : state :=
  {| va := nth 0 l 0; vb := nth 1 l 0; vc := nth 2 l 0; vd := nth 3 l 0;
     ve := nth 4 l 0; vf := nth 5 l 0; vg := nth 6 l 0; vh := nth 7 l 0 |}.

Definition H0 : state :=
  Eval vm_compute in state_of_list (map square_root_fraction (primes_below 20)).

Definition round (s : state) (k w : Z) : state :=
  let t1 := add32 (add32 (add32 (add32 (vh s) (bsig1 (ve s))) (Ch (ve s) (vf s) (vg s))) k) w in
  let t2 := add32 (bsig0 (va s)) (Maj (va s) (vb s) (vc s)) in
  {| va := add32 t1 t2; vb := va s; vc := vb s; vd := vc s;
     ve := add32 (vd s) t1; vf := ve s; vg := vf s; vh := vg s |}.

(** The message schedule as a window of sixteen words: its head is W_t,
    and W_(t+16) joins at the end when the head leaves. *)
Definition next_word (win : list Z) : Z :=
  add32 (add32 (add32 (ssig1 (nth 14 win 0)) (nth 9 win 0)) (ssig0 (nth 1 win 0)))
        (nth 0 win 0).

Definition step (sw : state * list Z) (k : Z) : state * list Z :=
  let '(s, win) := sw in
  (round s k (nth 0 win 0), (tl win ++ [next_word win])%list).

Definition add_state (x y : state) : state :=
  {| va := add32 (va x) (va y); vb := add32 (vb x) (vb y);
     vc := add32 (vc x) (vc y); vd := add32 (vd x) (vd y);
     ve := add32 (ve x) (ve y); vf := add32 (vf x) (vf y);
     vg := add32 (vg x) (vg y); vh := add32 (vh x) (vh y) |}.

Definition compress (h : state) (block : list Z) : state :=
  add_state h (fold_left step K (h, block)).1.

(** Big-endian words of a byte string (a trailing group of fewer than four
    bytes is dropped; padded messages have none). *)
Fixpoint words (bs : list byte) : list Z :=
  match bs with
  | b0 :: b1 :: b2 :: b3 :: rest =>
      (Z.of_N (Byte.to_N b0) * 2 ^ 24 + Z.of_N (Byte.to_N b1) * 2 ^ 16 +
       Z.of_N (Byte.to_N b2) * 2 ^ 8 + Z.of_N (Byte.to_N b3)) :: words rest
  | _ => []
  end.

Definition byte_of_Z (x : Z) : byte :=
  match Byte.of_N (Z.to_N (x mod 256)) with
  | Some b => b
  | None => x00
  end.

(** The bit length as eight bytes, most significant first. *)
Definition length_bytes (bits : Z) : list byte :=
  map (fun i => byte_of_Z (Z.shiftr bits (8 * i))) [7; 6; 5; 4; 3; 2; 1; 0].

Definition pad (msg : list byte) : list byte :=
  let len := Z.of_nat (length msg) in
  (msg ++ [x80] ++ repeat x00 (Z.to_nat ((55 - len) mod 64)) ++ length_bytes (8 * len))%list.

(** [n] blocks of sixteen words, folded into the chaining value. *)
Fixpoint hash_blocks (n : nat) (h : state) (ws : list Z) : state :=
  match n with
  | O => h
  | S n' => hash_blocks n' (compress h (firstn 16 ws)) (skipn 16 ws)
  end.

Definition digest (msg : list byte) : state :=
  let ws := words (pad msg) in
  hash_blocks (length ws / 16) H0 ws.

Definition hex_digit (n : Z) : ascii :=
  match String.get (Z.to_nat (n mod 16)) "0123456789abcdef" with
  | Some c => c
  | None => "0"%char
  end.

(** Eight lowercase hexadecimal digits of a word, most significant first. *)
Definition hex_word (x : Z) : string :=
  string_of_list_ascii
    (map (fun i => hex_digit (Z.shiftr x (4 * i))) [7; 6; 5; 4; 3; 2; 1; 0]).

Definition hexdigest (msg : list byte) : string :=
  let s := digest msg in
  hex_word (va s) ++ hex_word (vb s) ++ hex_word (vc s) ++ hex_word (vd s) ++
  hex_word (ve s) ++ hex_word (vf s) ++ hex_word (vg s) ++ hex_word (vh s).

End SHA256.

(** [hashlib.sha256(pdf_content).hexdigest()] *)
Definition get_pdf_hash (pdf_content : list byte) : string :=
  SHA256.hexdigest pdf_content.

(** The bytes of an ASCII text. *)
Definition bytes_of_string (s : string) : list byte :=
  map byte_of_ascii (list_ascii_of_string s).

(** The alphabet of a digest, and every text of a given length over it. *)
Definition hex_alphabet : list ascii := list_ascii_of_string "0123456789abcdef".

Definition is_hex_text (s : string) : Prop :=
  forall c, In c (list_ascii_of_string s) -> In c hex_alphabet.

Fixpoint hex_texts (n : nat) : list string :=
  match n with
  | O => [EmptyString]
  | S n' => flat_map (fun c => map (String c) (hex_texts n')) hex_alphabet
  end.

(** Inputs that differ pairwise: [n] zero bytes, for each [n]. *)
Definition zeros (n : nat) : list byte := repeat x00 n.

(* ===================================================================== *)
(** * main.py: the Pattern Filter                                         *)
(* ===================================================================== *)

(** What [filter_list] asks of a compiled pattern ([re.Pattern]): the
    method [search]. [fullmatch] is there to tell the two apart. A match
    object is always truthy, so only "matched or not" is kept. *)
Class Pattern (P : Type) : Type := {
  search : P -> string -> bool;
  fullmatch : P -> string -> bool
}.

(** [[text for text in data if any(pattern.search(text) for pattern in patterns)]] *)
Definition filter_list {P : Type} `{Pattern P} (data : list string) (patterns : list P)
  : list string :=
  List.filter (fun text => existsb (fun pattern => search pattern text) patterns) data.

(** The contract in the words of the specification: an entry is kept when
    it matches at least one pattern, and the result is what is left of
    [data] when the other entries are struck out. *)
Definition matches_any {P : Type} `{Pattern P} (patterns : list P) (text : string) : Prop :=
  exists pattern, In pattern patterns /\ search pattern text = true.

Inductive selected {P : Type} `{Pattern P} (patterns : list P)
  : list string -> list string -> Prop :=
| selected_nil : selected patterns [] []
| selected_keep text data kept :
    matches_any patterns text ->
    selected patterns data kept ->
    selected patterns (text :: data) (text :: kept)
| selected_drop text data kept :
    ~ matches_any patterns text ->
    selected patterns data kept ->
    selected patterns (text :: data) kept.

(** ** Patterns without metacharacters

    [re.compile(lit, flags)] for a [lit] made of ordinary characters only,
    with or without [re.IGNORECASE]. Strings are read as UTF-8; letters
    are compared by their ASCII case, which is what Python does for every
    literal without the letters i, k and s (the only ASCII letters with a
    case variant outside ASCII). *)
Record literal_pattern : Type := {
  pattern : string;
  IGNORECASE : bool
}.

Definition ascii_lower (c : ascii) : ascii :=
  let n := nat_of_ascii c in
  if (65 <=? n)%nat && (n <=? 90)%nat then ascii_of_nat (n + 32) else c.

Definition char_matches (ic : bool) (a b : ascii) : bool :=
  if ic then Ascii.eqb (ascii_lower a) (ascii_lower b) else Ascii.eqb a b.

(** The literal matches at the start of [text]. *)
Fixpoint match_here (ic : bool) (lit text : string) : bool :=
  match lit, text with
  | EmptyString, _ => true
  | String a lit', String b text' => char_matches ic a b && match_here ic lit' text'
  | String _ _, EmptyString => false
  end.

(** It matches at some position of [text]. *)
Fixpoint search_literal (ic : bool) (lit text : string) : bool :=
  match_here ic lit text ||
  match text with
  | EmptyString => false
  | String _ text' => search_literal ic lit text'
  end.

(** It matches the whole of [text]. *)
Fixpoint fullmatch_literal (ic : bool) (lit text : string) : bool :=
  match lit, text with
  | EmptyString, EmptyString => true
  | String a lit', String b text' => char_matches ic a b && fullmatch_literal ic lit' text'
  | _, _ => false
  end.

#[export] Instance literal_Pattern : Pattern literal_pattern := {
  search p text := search_literal (IGNORECASE p) (pattern p) text;
  fullmatch p text := fullmatch_literal (IGNORECASE p) (pattern p) text
}.

(** [SCHEDULE_72HR_REGEX = [re.compile(r"72hr", re.IGNORECASE)]] *)
Definition SCHEDULE_72HR_REGEX : list literal_pattern :=
  [{| pattern := "72hr"; IGNORECASE := true |}].

(* ===================================================================== *)
(** * Methods of str                                                      *)
(* ===================================================================== *)

Module Str.

Fixpoint contains (c : ascii) (s : string) : bool :=
  match s with
  | EmptyString => false
  | String a s' => Ascii.eqb a c || contains c s'
  end.

(** [s.split(c, 1)]: the text before the first [c], and the text after it
    when there is one. *)
Fixpoint split_first (c : ascii) (s : string) : string * option string :=
  match s with
  | EmptyString => (EmptyString, None)
  | String a s' =>
      if Ascii.eqb a c then (EmptyString, Some s')
      else let '(h, t) := split_first c s' in (String a h, t)
  end.

(** [s.split(c)] *)
Fixpoint split_all (c : ascii) (s : string) : list string :=
  match s with
  | EmptyString => [EmptyString]
  | String a s' =>
      if Ascii.eqb a c then EmptyString :: split_all c s'
      else match split_all c s' with
           | h :: t => String a h :: t
           | [] => [String a EmptyString]
           end
  end.

(** [s[: s.rfind(c) + 1]] and [s[s.rfind(c) + 1 :]] *)
Fixpoint upto_last (c : ascii) (s : string) : string :=
  match s with
  | EmptyString => EmptyString
  | String a s' =>
      if contains c s' then String a (upto_last c s')
      else if Ascii.eqb a c then String a EmptyString else EmptyString
  end.

Fixpoint after_last (c : ascii) (s : string) : string :=
  match s with
  | EmptyString => EmptyString
  | String a s' =>
      if contains c s' then after_last c s'
      else if Ascii.eqb a c then s' else s
  end.

End Str.

(* ===================================================================== *)
(** * main.py: the Link Extractor                                         *)
(* ===================================================================== *)

(** ** What httpx answers *)

(** The answer to [httpx.get(url, **kwargs)]: a response with its status
    code and decoded body, or an exception. *)
Inductive get_outcome : Type :=
| Response (status_code : Z) (text : string)
| GetFails (e : exn).

(** [Response.is_success] *)
Definition is_success (status_code : Z) : bool :=
  ((200 <=? status_code) && (status_code <=? 299))%Z.

(** [response.raise_for_status()]: [HTTPStatusError] unless the status is
    2xx. *)
Definition raise_for_status (status_code : Z) : result unit :=
  if is_success status_code then Ok tt else Raise (HTTPStatusError status_code).

(** Keyword arguments, by name. The sources only ever pass and read
    [headers], a dictionary of header fields. *)
Definition kwargs_t : Type := gmap string (gmap string string).

(** [kwargs["headers"]] *)
Definition kwargs_headers (kwargs : kwargs_t) : result (gmap string string) :=
  match kwargs !! "headers" with
  | Some h => Ok h
  | None => Raise KeyError
  end.

(** ** The parsed document *)

(** The value of an attribute in BeautifulSoup: a string, or a list of
    strings for the multi-valued attributes ([class], [rel], ...). *)
Inductive attr_value : Type :=
| AttrStr (s : string)
| AttrList (l : list string).

(** A node of the tree: an element (a [Tag], its attributes a dictionary)
    or a piece of text (not a [Tag]). *)
#[warnings="-register-all"]
Inductive node : Type :=
| Tag (name : string) (attrs : gmap string attr_value) (children : list node)
| NavigableString (text : string).

(** The nodes below a node, in document order. *)
Fixpoint descendants (n : node) : list node :=
  match n with
  | Tag _ _ children => flat_map (fun c => c :: descendants c) children
  | NavigableString _ => []
  end.

(** [soup.find_all("a", href=True)] on a document given by its top-level
    nodes: the elements named [a] that have an attribute [href], in
    document order. *)
Definition is_anchor_with_href (n : node) : bool :=
  match n with
  | Tag name attrs _ =>
      String.eqb name "a" && match attrs !! "href" with Some _ => true | None => false end
  | NavigableString _ => false
  end.

(** Every node of a document, in document order. *)
Definition document_order (soup : list node) : list node :=
  flat_map (fun c => c :: descendants c) soup.

Definition find_all_a_href (soup : list node) : list node :=
  List.filter is_anchor_with_href (document_order soup).

(** [link.get("href")] *)
Definition get_href (link : node) : option attr_value :=
  match link with
  | Tag _ attrs _ => attrs !! "href"
  | NavigableString _ => None
  end.

(** [s.endswith(suffix)] *)
Definition endswith (s suffix : string) : bool :=
  let n := String.length s in
  let k := String.length suffix in
  if (n <? k)%nat then false
  else String.eqb (String.substring (n - k) k s) suffix.

Section LinkExtractor.

(** The library functions the extractor calls. [html_parser] is
    [BeautifulSoup(text, "html.parser")], [urlparse_path] is
    [urlparse(href).path], [urljoin] is [urllib.parse.urljoin]; the last two
    raise [ValueError] on some malformed URLs. *)
Variable html_parser : string -> list node.
Variable urlparse_path : string -> result string.
Variable urljoin : string -> string -> result string.

(** The body of the [for] loop over the anchors, [pdf_links] being the
    list built so far. An exception ends the loop and is handed back with
    the list as it stands. *)
Fixpoint scan_links (url : string) (links : list node) (pdf_links : list string)
  : list string * option exn :=
  match links with
  | [] => (pdf_links, None)
  | link :: rest =>
      match link with
      | NavigableString _ => scan_links url rest pdf_links   (* not a Tag *)
      | Tag _ _ _ =>
          match get_href link with
          | Some (AttrStr href) =>
              match urlparse_path href with
              | Raise e => (pdf_links, Some e)
              | Ok path =>
                  if endswith path ".pdf" then
                    match urljoin url href with
                    | Raise e => (pdf_links, Some e)
                    | Ok absolute_url => scan_links url rest (pdf_links ++ [absolute_url])
                    end
                  else scan_links url rest pdf_links
              end
          | _ => scan_links url rest pdf_links               (* not a str *)
          end
      end
  end.

(** [get_pdf_links(url, **kwargs)], [response] being what [httpx.get]
    answers. Every exception raised inside the [try] block is caught by one
    of the three handlers, which log and fall through to
    [return pdf_links]. *)
Definition get_pdf_links (url : string) (kwargs : kwargs_t) (response : get_outcome)
  : result (list string) :=
  match kwargs_headers kwargs with
  | Raise e => Raise e
  | Ok _ =>
      match response with
      | GetFails _ => Ok []
      | Response status_code text =>
          match raise_for_status status_code with
          | Raise _ => Ok []
          | Ok _ => Ok (scan_links url (find_all_a_href (html_parser text)) []).1
          end
      end
  end.

(** The hrefs the loop looks at: the string values of [href] on the
    anchors, in document order. *)
Definition str_href (link : node) : option string :=
  match get_href link with
  | Some (AttrStr href) => Some href
  | _ => None
  end.

Definition hrefs (soup : list node) : list string :=
  omap str_href (find_all_a_href soup).

(** The same, read off the nodes directly: the href of an element named
    [a] whose [href] is a string. *)
Definition anchor_href (n : node) : option string :=
  match n with
  | Tag name attrs _ =>
      if String.eqb name "a" then
        match attrs !! "href" with
        | Some (AttrStr href) => Some href
        | _ => None
        end
      else None
  | NavigableString _ => None
  end.

(** The loop, seen on the hrefs alone. *)
Fixpoint scan_hrefs (url : string) (hs : list string) (pdf_links : list string)
  : list string * option exn :=
  match hs with
  | [] => (pdf_links, None)
  | href :: rest =>
      match urlparse_path href with
      | Raise e => (pdf_links, Some e)
      | Ok path =>
          if endswith path ".pdf" then
            match urljoin url href with
            | Raise e => (pdf_links, Some e)
            | Ok absolute_url => scan_hrefs url rest (pdf_links ++ [absolute_url])
            end
          else scan_hrefs url rest pdf_links
      end
  end.

(** The contract as the specification words it: resolve every href against
    the page URL, keep the resolved URLs whose path ends in [.pdf]. A URL
    that cannot be resolved or parsed contributes nothing. *)
Definition resolved_pdf_links (url : string) (soup : list node) : list string :=
  omap (fun href =>
          match urljoin url href with
          | Ok absolute_url =>
              match urlparse_path absolute_url with
              | Ok path => if endswith path ".pdf" then Some absolute_url else None
              | Raise _ => None
              end
          | Raise _ => None
          end)
       (hrefs soup).

(** What the code does: keep the hrefs whose own path ends in [.pdf], then
    resolve them. *)
Definition href_has_pdf_path (href : string) : bool :=
  match urlparse_path href with
  | Ok path => endswith path ".pdf"
  | Raise _ => false
  end.

Definition resolve_all (url : string) (l : list string) : list string :=
  omap (fun href => match urljoin url href with Ok u => Some u | Raise _ => None end) l.

(** Nothing raises on this href. *)
Definition href_ok (url href : string) : bool :=
  match urlparse_path href with
  | Ok path =>
      if endswith path ".pdf"
      then match urljoin url href with Ok _ => true | Raise _ => false end
      else true
  | Raise _ => false
  end.

End LinkExtractor.

(* ===================================================================== *)
(** * urllib.parse, as far as the extractor uses it                       *)
(* ===================================================================== *)

(** A model of CPython's [urlparse] and [urljoin] on [str] arguments, for
    running the extractor on concrete pages. It follows [urllib/parse.py]
    line by line with two omissions, both checks on the host that only
    ever raise: hosts written in brackets are not validated as IP
    literals, and hosts outside ASCII are not checked under NFKC. *)
Module Urllib.

Definition uses_relative : list string :=
  [""; "ftp"; "http"; "gopher"; "nntp"; "imap"; "wais"; "file"; "https"; "shttp"; "mms";
   "prospero"; "rtsp"; "rtspu"; "sftp"; "svn"; "svn+ssh"; "ws"; "wss"].

Definition uses_netloc : list string :=
  [""; "ftp"; "http"; "gopher"; "nntp"; "telnet"; "imap"; "wais"; "file"; "mms"; "https";
   "shttp"; "snews"; "prospero"; "rtsp"; "rtspu"; "rsync"; "svn"; "svn+ssh"; "sftp"; "nfs";
   "git"; "git+ssh"; "ws"; "wss"].

Definition uses_params : list string :=
  [""; "ftp"; "hdl"; "prospero"; "http"; "imap"; "https"; "shttp"; "rtsp"; "rtspu"; "sip";
   "sips"; "mms"; "sftp"; "tel"].

Definition mem (s : string) (l : list string) : bool := existsb (String.eqb s) l.

(** ** Strings *)

Import Str.

Definition lower (s : string) : string :=
  string_of_list_ascii (map ascii_lower (list_ascii_of_string s)).

Definition is_c0_or_space (c : ascii) : bool := (nat_of_ascii c <=? 32)%nat.

(** [url.lstrip(_WHATWG_C0_CONTROL_OR_SPACE)] *)
Fixpoint lstrip_c0 (s : string) : string :=
  match s with
  | EmptyString => EmptyString
  | String a s' => if is_c0_or_space a then lstrip_c0 s' else s
  end.

(** [s.strip(_WHATWG_C0_CONTROL_OR_SPACE)] *)
Definition strip_c0 (s : string) : string :=
  string_of_list_ascii
    (rev (list_ascii_of_string
            (lstrip_c0 (string_of_list_ascii
                          (rev (list_ascii_of_string (lstrip_c0 s))))))).

(** Tab, carriage return and line feed are removed wherever they are. *)
Definition is_unsafe (c : ascii) : bool :=
  let n := nat_of_ascii c in
  (n =? 9)%nat || (n =? 13)%nat || (n =? 10)%nat.

Fixpoint remove_unsafe (s : string) : string :=
  match s with
  | EmptyString => EmptyString
  | String a s' => if is_unsafe a then remove_unsafe s' else String a (remove_unsafe s')
  end.

Definition is_alpha (c : ascii) : bool :=
  let n := nat_of_ascii c in
  ((65 <=? n) && (n <=? 90) || (97 <=? n) && (n <=? 122))%nat.

Definition is_scheme_char (c : ascii) : bool :=
  let n := nat_of_ascii c in
  (is_alpha c || (48 <=? n) && (n <=? 57) || (n =? 43) || (n =? 45) || (n =? 46))%nat.

Definition all_scheme_chars (s : string) : bool :=
  forallb is_scheme_char (list_ascii_of_string s).

(** ** Splitting *)

Record ParseResult : Type := {
  scheme : string;
  netloc : string;
  path : string;
  params : string;
  query : string;
  fragment : string
}.

(** [_splitnetloc(url, 2)] on a [url] that starts with two slashes. *)
Fixpoint until_delim (s : string) : string * string :=
  match s with
  | EmptyString => (EmptyString, EmptyString)
  | String a s' =>
      if Ascii.eqb a "/" || Ascii.eqb a "?" || Ascii.eqb a "#" then (EmptyString, s)
      else let '(h, t) := until_delim s' in (String a h, t)
  end.

Definition starts_with_slashes (s : string) : bool :=
  match s with
  | String a (String b _) => Ascii.eqb a "/" && Ascii.eqb b "/"
  | _ => false
  end.

Definition urlsplit (url scheme : string) : result ParseResult :=
  let url := remove_unsafe (lstrip_c0 url) in
  let scheme := remove_unsafe (strip_c0 scheme) in
  (* the scheme *)
  let '(scheme, url) :=
    match split_first ":" url with
    | (before, Some after) =>
        match before with
        | String a _ =>
            if is_alpha a && all_scheme_chars before then (lower before, after)
            else (scheme, url)
        | EmptyString => (scheme, url)
        end
    | (_, None) => (scheme, url)
    end in
  (* the network location *)
  let '(netloc, url) :=
    if starts_with_slashes url
    then until_delim (String.substring 2 (String.length url - 2) url)
    else (EmptyString, url) in
  if contains "[" netloc && negb (contains "]" netloc)
     || contains "]" netloc && negb (contains "[" netloc)
  then Raise ValueError
  else
    let '(url, fragment) :=
      match split_first "#" url with
      | (before, Some after) => (before, after)
      | (_, None) => (url, EmptyString)
      end in
    let '(url, query) :=
      match split_first "?" url with
      | (before, Some after) => (before, after)
      | (_, None) => (url, EmptyString)
      end in
    Ok {| scheme := scheme; netloc := netloc; path := url; params := EmptyString;
          query := query; fragment := fragment |}.

(** [_splitparams(url)] on a [url] that holds a semicolon. *)
Definition splitparams (url : string) : string * string :=
  if contains "/" url then
    match split_first ";" (after_last "/" url) with
    | (before, Some after) => (upto_last "/" url ++ before, after)
    | (_, None) => (url, EmptyString)
    end
  else
    match split_first ";" url with
    | (before, Some after) => (before, after)
    | (_, None) => (url, EmptyString)
    end.

Definition urlparse (url scheme : string) : result ParseResult :=
  match urlsplit url scheme with
  | Raise e => Raise e
  | Ok r =>
      if mem (Urllib.scheme r) uses_params && contains ";" (path r) then
        let '(url, params) := splitparams (path r) in
        Ok {| scheme := Urllib.scheme r; netloc := netloc r; path := url; params := params;
              query := query r; fragment := fragment r |}
      else Ok r
  end.

(** [urlparse(url).path] *)
Definition urlparse_path (url : string) : result string :=
  match urlparse url EmptyString with
  | Raise e => Raise e
  | Ok r => Ok (path r)
  end.

(** ** Joining *)

Definition nonempty (s : string) : bool := negb (String.eqb s EmptyString).

Definition urlunsplit (scheme netloc url query fragment : string) : string :=
  let url :=
    if nonempty netloc
       || nonempty scheme && mem scheme uses_netloc && negb (starts_with_slashes url)
    then
      let url :=
        match url with
        | String a _ => if Ascii.eqb a "/" then url else String "/" url
        | EmptyString => url
        end in
      "//" ++ netloc ++ url
    else url in
  let url := if nonempty scheme then scheme ++ ":" ++ url else url in
  let url := if nonempty query then url ++ "?" ++ query else url in
  if nonempty fragment then url ++ "#" ++ fragment else url.

Definition urlunparse (r : ParseResult) : string :=
  let url := if nonempty (params r) then path r ++ ";" ++ params r else path r in
  urlunsplit (scheme r) (netloc r) url (query r) (fragment r).

(** [segments[1:-1] = filter(None, segments[1:-1])] *)
Definition drop_empty_inner (segments : list string) : list string :=
  match segments with
  | first :: (_ :: _) as rest =>
      (first :: List.filter nonempty (removelast rest) ++ [List.last rest EmptyString])%list
  | _ => segments
  end.

(** The loop over the segments: [..] pops, [.] is skipped. *)
Definition resolve_segments (segments : list string) : list string :=
  fold_left (fun resolved seg =>
               if String.eqb seg ".." then removelast resolved
               else if String.eqb seg "." then resolved
               else (resolved ++ [seg])%list)
            segments [].

Definition urljoin (base url : string) : result string :=
  if negb (nonempty base) then Ok url
  else if negb (nonempty url) then Ok base
  else
    match urlparse base EmptyString with
    | Raise e => Raise e
    | Ok b =>
        match urlparse url (scheme b) with
        | Raise e => Raise e
        | Ok u =>
            if negb (String.eqb (scheme u) (scheme b)) || negb (mem (scheme u) uses_relative)
            then Ok url
            else if mem (scheme u) uses_netloc && nonempty (netloc u)
            then Ok (urlunparse u)
            else
              let netloc := if mem (scheme u) uses_netloc then netloc b else netloc u in
              if negb (nonempty (path u)) && negb (nonempty (params u)) then
                Ok (urlunparse
                      {| scheme := scheme u; netloc := netloc; path := path b;
                         params := params b;
                         query := if nonempty (query u) then query u else query b;
                         fragment := fragment u |})
              else
                let base_parts := split_all "/" (path b) in
                let base_parts :=
                  if nonempty (List.last base_parts EmptyString)
                  then removelast base_parts else base_parts in
                let segments :=
                  match path u with
                  | String "/" _ => split_all "/" (path u)
                  | _ => drop_empty_inner (base_parts ++ split_all "/" (path u))%list
                  end in
                let resolved := resolve_segments segments in
                let resolved :=
                  if mem (List.last segments EmptyString) ["."; ".."]
                  then (resolved ++ [EmptyString])%list else resolved in
                let joined := String.concat "/" resolved in
                Ok (urlunparse
                      {| scheme := scheme u; netloc := netloc;
                         path := if nonempty joined then joined else "/";
                         params := params u; query := query u; fragment := fragment u |})
        end
    end.

End Urllib.

(* ===================================================================== *)
(** * The file system                                                     *)
(* ===================================================================== *)

(** POSIX paths. A path names a file or a directory by its spelling: two
    spellings are two names. Permissions and full disks are left out: the
    operations fail only for the reasons written here. *)
Module Posix.

Import Str.

Definition nonempty (s : string) : bool := negb (String.eqb s EmptyString).

Definition all_slashes (s : string) : bool :=
  forallb (fun c => Ascii.eqb c "/") (list_ascii_of_string s).

Fixpoint drop_slashes (l : list ascii) : list ascii :=
  match l with
  | c :: l' => if Ascii.eqb c "/" then drop_slashes l' else l
  | [] => []
  end.

(** [s.rstrip("/")] *)
Definition rstrip_slashes (s : string) : string :=
  string_of_list_ascii (rev (drop_slashes (rev (list_ascii_of_string s)))).

(** [os.path.dirname(p)] *)
Definition dirname (p : string) : string :=
  let head := upto_last "/" p in
  if nonempty head && negb (all_slashes head) then rstrip_slashes head else head.

(** The initial segments of a list, shortest first. *)
Fixpoint inits {A : Type} (l : list A) : list (list A) :=
  match l with
  | [] => []
  | x :: l' => [x] :: map (cons x) (inits l')
  end.

(** A directory and the directories above it, the root left out. *)
Definition path_prefixes (d : string) : list string :=
  List.filter nonempty (map (String.concat "/") (inits (split_all "/" d))).

(** [os.makedirs(d, exist_ok=True)]: the empty name cannot be made
    ([FileNotFoundError]); a regular file in the way stops it
    ([FileExistsError], [NotADirectoryError]); otherwise [d] and the
    directories above it exist afterwards. *)
Definition makedirs (d : string) (w : world) : result unit * world :=
  if negb (nonempty d) then (Raise OSError, w)
  else if existsb (fun p => bool_decide (is_Some (files w !! p))) (path_prefixes d)
  then (Raise OSError, w)
  else (Ok tt, with_dirs w (dirs w ∪ list_to_set (path_prefixes d))).

(** [open(p, "wb")]: a directory cannot be opened for writing
    ([IsADirectoryError]), nor a file in a directory that is not there
    ([FileNotFoundError]); otherwise the file exists and is empty
    afterwards. *)
Definition open_wb (p : string) (w : world) : result unit * world :=
  if negb (nonempty p) || bool_decide (p ∈ dirs w) || endswith p "/"
  then (Raise OSError, w)
  else if nonempty (dirname p) && negb (all_slashes (dirname p))
          && negb (bool_decide (dirname p ∈ dirs w))
  then (Raise OSError, w)
  else (Ok tt, with_files w (<[p := []]> (files w))).

(** [f.write(chunk)] on the file opened at [p]. *)
Definition write (p : string) (chunk : list byte) (w : world) : world :=
  with_files w (alter (fun content => (content ++ chunk)%list) p (files w)).

(** [for chunk in chunks: f.write(chunk)] *)
Definition write_all (p : string) (chunks : list (list byte)) (w : world) : world :=
  fold_left (fun w chunk => write p chunk w) chunks w.

(** [open(p, "rb").read()] *)
Definition read_rb (p : string) (w : world) : result (list byte) :=
  match files w !! p with
  | Some content => Ok content
  | None => Raise OSError
  end.

End Posix.

(* ===================================================================== *)
(** * main.py: the Downloader                                             *)
(* ===================================================================== *)

(** The answer to [httpx.stream("GET", url, follow_redirects=True,
    timeout=30.0, **kwargs)]: the final response with its status code and
    the chunks [iter_bytes] yields, after which the iteration ends or, for
    [broken = Some e], raises [e]; or an exception before any response. *)
Inductive stream_outcome : Type :=
| StreamResponse (status_code : Z) (chunks : list (list byte)) (broken : option exn)
| StreamFails (e : exn).

(** [download_pdf(url, save_path, **kwargs)], [answer] being what
    [httpx.stream] answers. Inside the [try] block every exception ends in
    one of the three handlers, and each returns [None]. *)
Definition download_pdf (url save_path : string) (kwargs : kwargs_t)
    (answer : stream_outcome) (w : world) : result (option string) * world :=
  match kwargs_headers kwargs with
  | Raise e => (Raise e, w)
  | Ok _ =>
      match answer with
      | StreamFails _ => (Ok None, w)
      | StreamResponse status_code chunks broken =>
          match raise_for_status status_code with
          | Raise _ => (Ok None, w)
          | Ok _ =>
              match Posix.makedirs (Posix.dirname save_path) w with
              | (Raise _, w1) => (Ok None, w1)
              | (Ok _, w1) =>
                  match Posix.open_wb save_path w1 with
                  | (Raise _, w2) => (Ok None, w2)
                  | (Ok _, w2) =>
                      let w3 := Posix.write_all save_path chunks w2 in
                      match broken with
                      | Some _ => (Ok None, w3)
                      | None => (Ok (Some save_path), w3)
                      end
                  end
              end
          end
      end
  end.

(** The destination can be written: its directory can be made and the
    file opened. *)
Definition can_save (save_path : string) (w : world) : bool :=
  match Posix.makedirs (Posix.dirname save_path) w with
  | (Ok _, w1) =>
      match Posix.open_wb save_path w1 with
      | (Ok _, _) => true
      | (Raise _, _) => false
      end
  | (Raise _, _) => false
  end.

(* ===================================================================== *)
(** * main.py: the Pipeline Orchestrator                                  *)
(* ===================================================================== *)

Definition target_url : string :=
  "https://www.amc.af.mil/AMC-Travel-Site/Terminals/CONUS-Terminals/" ++
  "Baltimore-Washington-International-Airport-Passenger-Terminal/".

(** [f"{AppSettings.DOWNLOAD_DIR.value}/{uuid}.pdf"] *)
Definition download_path (uuid : string) : string :=
  AppSettings.DOWNLOAD_DIR ++ "/" ++ uuid ++ ".pdf".

Section Orchestrator.

(** The libraries, as for the extractor. *)
Variable html_parser : string -> list node.
Variable urlparse_path : string -> result string.
Variable urljoin : string -> string -> result string.

(** What the outside world answers during one run: the browser name
    [fake_useragent] picks, the variables of the [.env] file if there is
    one, the answer to the request for the page, the answer to the [i]-th
    download, the [i]-th identifier [uuid.uuid4()] yields as text, and the
    time at the [i]-th item of the record stage. *)
Variable user_agent : string.
Variable dotenv : option (gmap string string).
Variable page : get_outcome.
Variable stream : nat -> string -> stream_outcome.
Variable uuid4 : nat -> string.
Variable now : nat -> Z.

(** [HEADERS], with the [Referer] the main block adds:
    [f"https://{urlparse(target_url).hostname}"]. *)
Definition HEADERS : gmap string string :=
  <["Referer" := "https://www.amc.af.mil"]>
    {[ "User-Agent" := user_agent;
       "Accept" := "application/pdf,application/xhtml+xml,application/xml;q=0.9," ++
                   "image/avif,image/webp,image/apng,*/*;q=0.8";
       "Accept-Encoding" := "gzip, deflate, br, zstd";
       "Accept-Language" := "en-US,en;q=0.9";
       "Connection" := "keep-alive" ]}.

Definition main_kwargs : kwargs_t := {[ "headers" := HEADERS ]}.

(** [load_dotenv()]: variables already set are kept. *)
Definition load_dotenv (w : world) : world :=
  match dotenv with
  | Some vars => with_environ w (environ w ∪ vars)
  | None => w
  end.

(** The startup sequence, up to [os.makedirs(DOWNLOAD_DIR, exist_ok=True)].
    Nothing here is caught. *)
Definition startup (w : world) : result unit * world :=
  let w := load_dotenv w in
  match setup_database w with
  | (Raise e, w1) => (Raise e, w1)
  | (Ok _, w1) => Posix.makedirs AppSettings.DOWNLOAD_DIR w1
  end.

(** Stages 1 and 2. *)
Definition pdf_links : result (list string) :=
  get_pdf_links html_parser urlparse_path urljoin target_url main_kwargs page.

Definition pdf_72hr_links : list string :=
  match pdf_links with
  | Ok links => filter_list links SCHEDULE_72HR_REGEX
  | Raise _ => []
  end.

(** Stage 3, the list comprehension: one [download_pdf] per link, in
    order, [i] counting the links already done. *)
Fixpoint fetch_all (i : nat) (links : list string) (w : world)
  : result (list (option string)) * world :=
  match links with
  | [] => (Ok [], w)
  | pdf_link :: rest =>
      match download_pdf pdf_link (download_path (uuid4 i)) main_kwargs
                         (stream i pdf_link) w with
      | (Raise e, w1) => (Raise e, w1)
      | (Ok pdf_path, w1) =>
          match fetch_all (S i) rest w1 with
          | (Raise e, w2) => (Raise e, w2)
          | (Ok paths, w2) => (Ok (pdf_path :: paths), w2)
          end
      end
  end.

(** [if not pdf_path]: [None] and the empty text are falsy. *)
Definition falsy (pdf_path : option string) : bool :=
  match pdf_path with
  | None => true
  | Some p => String.eqb p EmptyString
  end.

(** Stages 4 and 5, the loop over [zip(pdfs_72hrs, pdf_72hr_links,
    strict=True)]: [ValueError] when one list ends before the other. *)
Fixpoint store_all (i : nat) (pdfs_72hrs : list (option string)) (links : list string)
    (w : world) : result unit * world :=
  match pdfs_72hrs, links with
  | [], [] => (Ok tt, w)
  | pdf_path :: pdfs', pdf_url :: links' =>
      match pdf_path with
      | Some p =>
          if falsy pdf_path then store_all (S i) pdfs' links' w
          else
            match Posix.read_rb p w with
            | Raise e => (Raise e, w)
            | Ok pdf_bytes =>
                let pdf_hash := get_pdf_hash pdf_bytes in
                match hash_exists pdf_hash w with
                | (Raise e, w1) => (Raise e, w1)
                | (Ok true, w1) => store_all (S i) pdfs' links' w1
                | (Ok false, w1) =>
                    match add_hash (now i) pdf_hash pdf_url w1 with
                    | (Raise e, w2) => (Raise e, w2)
                    | (Ok _, w2) => store_all (S i) pdfs' links' w2
                    end
                end
            end
      | None => store_all (S i) pdfs' links' w
      end
  | _, _ => (Raise ValueError, w)
  end.

(** The main block. *)
Definition main (w : world) : result unit * world :=
  match startup w with
  | (Raise e, w1) => (Raise e, w1)
  | (Ok _, w1) =>
      match pdf_links with
      | Raise e => (Raise e, w1)
      | Ok links =>
          let pdf_72hr_links := filter_list links SCHEDULE_72HR_REGEX in
          match fetch_all 0 pdf_72hr_links w1 with
          | (Raise e, w2) => (Raise e, w2)
          | (Ok pdfs_72hrs, w2) => store_all 0 pdfs_72hrs pdf_72hr_links w2
          end
      end
  end.

(** The world before the [i]-th download. *)
Definition world_before (i : nat) (links : list string) (w : world) : world :=
  (fetch_all 0 (firstn i links) w).2.

(** The identifiers of a run over [n] links are pairwise different. *)
Definition distinct_uuids (n : nat) : Prop :=
  NoDup (map uuid4 (seq 0 n)).

(** Each path handed to the record stage names a file that holds the
    whole body streamed for the link at the same position. *)
Definition holds_bodies (i : nat) (pdfs : list (option string)) (links : list string)
    (w : world) : Prop :=
  forall k p,
    pdfs !! k = Some (Some p) ->
    exists url status_code chunks,
      links !! k = Some url /\
      stream (i + k) url = StreamResponse status_code chunks None /\
      is_success status_code = true /\
      files w !! p = Some (concat chunks).

(** A record pairs the digest of a body with the link it was streamed
    for. *)
Definition pairs_body_with_link (i : nat) (links : list string) (r : SeenPdfRecord)
  : Prop :=
  exists k url status_code chunks,
    links !! k = Some url /\
    stream (i + k) url = StreamResponse status_code chunks None /\
    is_success status_code = true /\
    r = {| hash := get_pdf_hash (concat chunks); source_url := url;
           first_seen_utc := now (i + k) |}.

End Orchestrator.

(* ===================================================================== *)
(** * Sequences of insertions                                             *)
(* ===================================================================== *)

(** One [add_hash] call after another, each with its own time, hash and
    URL. *)
Definition add_hashes (items : list (Z * string * string)) (w : world) : world :=
  fold_left (fun w item => (add_hash item.1.1 item.1.2 item.2 w).2) items w.

(* ===================================================================== *)
(** * logger.py                                                           *)
(* ===================================================================== *)

Module Logging.

Local Open Scope Z_scope.

(** The numeric levels of the [logging] module. *)
Definition DEBUG : Z := 10.
Definition INFO : Z := 20.
Definition WARNING : Z := 30.
Definition ERROR : Z := 40.
Definition CRITICAL : Z := 50.

(** A handler: where it writes, the level below which it drops records,
    and its format string. *)
Record Handler : Type := {
  handler_stream : string;
  handler_level : Z;
  handler_format : string
}.

(** The root logger. *)
Record Logger : Type := {
  level : Z;
  handlers : list Handler
}.

(** The root logger of a fresh interpreter: level [WARNING], no handler. *)
Definition fresh_root : Logger := {| level := WARNING; handlers := [] |}.

(** The handler [setup_logging] builds: [StreamHandler(sys.stdout)] at
    level [INFO] with the format ["%(levelname)s: %(message)s"]. *)
Definition console_handler : Handler :=
  {| handler_stream := "stdout"; handler_level := INFO;
     handler_format := "%(levelname)s: %(message)s" |}.

(** [setup_logging()]: the level is set in any case; the handler is added
    only [if not logger.handlers]. *)
Definition setup_logging (root : Logger) : Logger :=
  {| level := DEBUG;
     handlers := match handlers root with
                 | [] => [console_handler]
                 | _ :: _ => handlers root
                 end |}.

(** The handlers a record of level [record_level] is handed to and that
    do not drop it: the logger passes it on when it is at or above the
    logger's level, a handler takes it when it is at or above its own. *)
Definition handled_by (root : Logger) (record_level : Z) : list Handler :=
  if record_level <? level root then []
  else List.filter (fun h => handler_level h <=? record_level) (handlers root).

End Logging.

(* ===================================================================== *)
(** * Sample worlds                                                       *)
(* ===================================================================== *)

Definition world_empty : world :=
  {| environ := ∅; dbs := ∅; files := ∅; dirs := ∅ |}.

(** After [setup_database] with the variable unset. *)
Definition world_fresh : world := (setup_database world_empty).2.

(** After one insertion. *)
Definition world_one : world :=
  (add_hash 100 "aa" "http://a/x.pdf" world_fresh).2.

(** The variable [ssa.db] points somewhere else. *)
Definition world_elsewhere : world :=
  with_environ world_empty {[ "ssa.db" := "/var/lib/ssa/seen.db" ]}.

(* ===================================================================== *)
(** * Sample pages                                                        *)
(* ===================================================================== *)

Definition sample_kwargs : kwargs_t :=
  {[ "headers" := {[ "Accept-Language" := "en-US,en;q=0.9" ]} ]}.

(** Four anchors inside a list: [a.pdf], [/x/b.PDF], [c.html], and one
    without href. *)
Definition four_anchors_text : string :=
  "<ul><li><a href='a.pdf'>A</a></li><li><a href='/x/b.PDF'>B</a></li>" ++
  "<li><a href='c.html'>C</a></li><li><a>D</a></li></ul>".

Definition four_anchors : list node :=
  [Tag "ul" ∅
     [Tag "li" ∅ [Tag "a" {[ "href" := AttrStr "a.pdf" ]} [NavigableString "A"]];
      Tag "li" ∅ [Tag "a" {[ "href" := AttrStr "/x/b.PDF" ]} [NavigableString "B"]];
      Tag "li" ∅ [Tag "a" {[ "href" := AttrStr "c.html" ]} [NavigableString "C"]];
      Tag "li" ∅ [Tag "a" ∅ [NavigableString "D"]]]].

(** A page served at a URL whose own path ends in [.pdf], linking to
    itself with a query. *)
Definition self_link_url : string := "http://example.com/reports/latest.pdf".
Definition self_link_text : string := "<a href='?download=1'>download</a>".
Definition self_link : list node :=
  [Tag "a" {[ "href" := AttrStr "?download=1" ]} [NavigableString "download"]].

(** A good link followed by an href that [urlparse] rejects. *)
Definition bad_href_text : string := "<a href='a.pdf'>A</a><a href='//['>B</a>".
Definition bad_href : list node :=
  [Tag "a" {[ "href" := AttrStr "a.pdf" ]} [NavigableString "A"];
   Tag "a" {[ "href" := AttrStr "//[" ]} [NavigableString "B"]].

(** The terminal page: two 72-hour schedules and a roll call. *)
Definition schedule_page_text : string :=
  "<p><a href='/docs/BWI_72HR.pdf'>72-hour</a> <a href='/docs/roll-call.pdf'>roll call</a>" ++
  " <a href='/docs/DOV_72hr.pdf'>Dover</a></p>".

Definition schedule_page : list node :=
  [Tag "p" ∅
     [Tag "a" {[ "href" := AttrStr "/docs/BWI_72HR.pdf" ]} [NavigableString "72-hour"];
      NavigableString " ";
      Tag "a" {[ "href" := AttrStr "/docs/roll-call.pdf" ]} [NavigableString "roll call"];
      NavigableString " ";
      Tag "a" {[ "href" := AttrStr "/docs/DOV_72hr.pdf" ]} [NavigableString "Dover"]]].

(** What [BeautifulSoup(text, "html.parser")] makes of the sample texts. *)
Definition sample_parser (text : string) : list node :=
  if String.eqb text four_anchors_text then four_anchors
  else if String.eqb text self_link_text then self_link
  else if String.eqb text bad_href_text then bad_href
  else if String.eqb text schedule_page_text then schedule_page
  else [].

(** ** A sample run *)

Definition sample_body : list (list byte) :=
  [bytes_of_string "%PDF-1.7 "; bytes_of_string "72-hour schedule"].

(** The first download is served, the second is answered 404. *)
Definition sample_stream (i : nat) (url : string) : stream_outcome :=
  match i with
  | O => StreamResponse 200 sample_body None
  | _ => StreamResponse 404 [] None
  end.

Definition sample_uuid4 (i : nat) : string :=
  nth i ["1b4e28ba-2fa1-41d2-883f-0016d3cca427"; "6fa459ea-ee8a-4ca4-894e-db77e160355e"]
      "00000000-0000-4000-8000-000000000000".

Definition sample_now (i : nat) : Z := 1762214400000000 + Z.of_nat i.

Definition sample_main (w : world) : result unit * world :=
  main sample_parser Urllib.urlparse_path Urllib.urljoin "Mozilla/5.0" None
       (Response 200 schedule_page_text) sample_stream sample_uuid4 sample_now w.

(** The world the sample run leaves, from which it can be run again. *)
Definition world_after_run : world := (sample_main world_empty).2.

(** A world where a regular file has the name of the download
    directory. *)
Definition world_barred : world :=
  with_files world_empty {[ "pdf_downloads" := [] ]}.

(** The filtered links of the sample run. *)
Definition sample_links : list string :=
  pdf_72hr_links sample_parser Urllib.urlparse_path Urllib.urljoin "Mozilla/5.0"
                 (Response 200 schedule_page_text).
(* ===================================================================== *)
(** * Properties of the Dedup Store                                       *)
(* ===================================================================== *)

Section DedupStore.

Implicit Types (w : world) (rows : list SeenPdfRecord) (r : SeenPdfRecord).

Lemma with_dbs_same w : with_dbs w (dbs w) = w.
Proof. by destruct w. Qed.

Lemma seen_pdfs_default w :
  seen_pdfs AppSettings.DB_FILE w =
  match dbs w !! AppSettings.DB_FILE with Some db => db | None => None end.
Proof. reflexivity. Qed.

Lemma connect_seen_pdfs path q w : seen_pdfs q (connect path w) = seen_pdfs q w.
Proof.
  unfold connect, seen_pdfs.
  destruct (is_private path); [done|].
  destruct (dbs w !! path) eqn:E; [done|]. simpl.
  destruct (is_private q); [done|].
  destruct (decide (path = q)) as [->|Hne].
  - by rewrite lookup_insert_eq, E.
  - by rewrite lookup_insert_ne.
Qed.

Lemma connect_existing path w db :
  dbs w !! path = Some db -> connect path w = w.
Proof. unfold connect. intros ->. by destruct (is_private path). Qed.

Lemma seen_pdfs_Some_lookup w rows :
  seen_pdfs AppSettings.DB_FILE w = Some rows ->
  dbs w !! AppSettings.DB_FILE = Some (Some rows).
Proof.
  rewrite seen_pdfs_default. destruct (dbs w !! AppSettings.DB_FILE) as [db|]; [|done].
  by intros ->.
Qed.

Lemma select_hash_true h rows :
  select_hash h rows = true <-> exists r, In r rows /\ hash r = h.
Proof.
  unfold select_hash. rewrite existsb_exists.
  split; intros (r & Hin & Hr); exists r; split; auto.
  - by apply String.eqb_eq.
  - by apply String.eqb_eq.
Qed.

Lemma select_hash_false h rows :
  select_hash h rows = false <-> records_with h rows = [].
Proof.
  unfold select_hash, records_with.
  induction rows as [|r rows IH]; simpl; [done|].
  rewrite filter_cons. destruct (String.eqb_spec (hash r) h) as [Heq|Hne]; simpl.
  - rewrite decide_True by done. split; discriminate.
  - by rewrite decide_False.
Qed.

Lemma records_with_unique h rows r :
  unique_hashes rows -> In r rows -> hash r = h -> records_with h rows = [r].
Proof.
  unfold unique_hashes, records_with.
  induction rows as [|x rows IH]; simpl; [done|].
  intros Hnd [->|Hin] Hh; apply NoDup_cons in Hnd as [Hx Hnd]; rewrite filter_cons.
  - rewrite decide_True by done. f_equal.
    apply select_hash_false. apply not_true_is_false. intros Ht.
    apply select_hash_true in Ht as (r' & Hin' & Hr').
    apply Hx. apply list_elem_of_In, in_map_iff. exists r'. split; congruence.
  - rewrite decide_False; [by apply IH|].
    intros Hxh. apply Hx. apply list_elem_of_In, in_map_iff. exists r. split; congruence.
Qed.

Lemma insert_or_ignore_unique r rows :
  unique_hashes rows -> unique_hashes (insert_or_ignore r rows).
Proof.
  unfold insert_or_ignore, unique_hashes. intros Hnd.
  destruct (select_hash (hash r) rows) eqn:E; [done|].
  rewrite map_app. simpl. apply NoDup_app. split; [done|]. split.
  - intros x Hx Hx'. apply list_elem_of_In in Hx'. simpl in Hx'.
    destruct Hx' as [<-|[]].
    apply list_elem_of_In, in_map_iff in Hx as (r' & Hr' & Hin).
    assert (select_hash (hash r) rows = true) as Ht
      by (apply select_hash_true; eauto).
    congruence.
  - apply NoDup_singleton.
Qed.

Lemma add_hash_records now h url w rows :
  seen_pdfs AppSettings.DB_FILE w = Some rows ->
  add_hash now h url w =
    (Ok tt, with_dbs w (<[AppSettings.DB_FILE :=
       Some (insert_or_ignore {| hash := h; source_url := url; first_seen_utc := now |} rows)]>
       (dbs w))).
Proof.
  intros Hs. pose proof (seen_pdfs_Some_lookup _ _ Hs) as Hl.
  unfold add_hash. rewrite (connect_existing _ _ _ Hl), Hs. done.
Qed.

Lemma seen_pdfs_with_dbs_insert w db :
  seen_pdfs AppSettings.DB_FILE (with_dbs w (<[AppSettings.DB_FILE := db]> (dbs w))) = db.
Proof. rewrite seen_pdfs_default. simpl. by rewrite lookup_insert_eq. Qed.

Lemma add_hash_ready now h url w :
  store_ready w -> store_ready (add_hash now h url w).2.
Proof.
  intros (rows & Hs & Hnd). rewrite (add_hash_records _ _ _ _ _ Hs). simpl.
  eexists. split; [apply seen_pdfs_with_dbs_insert|]. by apply insert_or_ignore_unique.
Qed.

End DedupStore.

(** ** Insertion *)

(** C1. Inserting a hash that the store already holds is a silent no-op:
    [add_hash] returns normally and leaves the whole world as it was, so
    the store still holds exactly the one record [r] with that hash, its
    [source_url] and [first_seen_utc] untouched. In particular, when the
    hash is inserted twice into a store that did not hold it, the one
    record left carries the URL and the instant of the first insertion. *)
Theorem add_hash_existing_is_noop :
  forall (w : world) (h : string),
    store_ready w ->
    (forall now url r,
        In r (records w) -> hash r = h ->
        add_hash now h url w = (Ok tt, w) /\
        records_with h (records w) = [r]) /\
    (forall t1 u1 t2 u2,
        records_with h (records w) = [] ->
        let w1 := (add_hash t1 h u1 w).2 in
        add_hash t2 h u2 w1 = (Ok tt, w1) /\
        records_with h (records w1) =
          [{| hash := h; source_url := u1; first_seen_utc := t1 |}] /\
        unique_hashes (records w1)).
Proof.
  intros w h Hready.
  assert (forall w', store_ready w' -> forall now url r,
             In r (records w') -> hash r = h ->
             add_hash now h url w' = (Ok tt, w') /\
             records_with h (records w') = [r]) as Hnoop.
  { clear. intros w (rows & Hs & Hnd) now url r Hin Hh.
    unfold records in *. rewrite Hs in *.
    split; [|by apply records_with_unique].
    rewrite (add_hash_records _ _ _ _ _ Hs).
    unfold insert_or_ignore. simpl.
    assert (select_hash h rows = true) as ->
      by (apply select_hash_true; eauto).
    rewrite insert_id by (by apply seen_pdfs_Some_lookup).
    by rewrite with_dbs_same. }
  split; [by apply Hnoop|].
  intros t1 u1 t2 u2 Habs w1.
  pose proof (add_hash_ready t1 h u1 w Hready) as Hready1. fold w1 in Hready1.
  destruct Hready as (rows & Hs & Hnd).
  assert (records w1 = (rows ++ [{| hash := h; source_url := u1; first_seen_utc := t1 |}])%list)
    as Hrec1.
  { unfold w1, records. rewrite (add_hash_records _ _ _ _ _ Hs). simpl.
    rewrite seen_pdfs_with_dbs_insert. unfold insert_or_ignore. simpl.
    unfold records in Habs. rewrite Hs in Habs.
    apply select_hash_false in Habs. by rewrite Habs. }
  assert (In {| hash := h; source_url := u1; first_seen_utc := t1 |} (records w1)) as Hin
    by (rewrite Hrec1; apply in_or_app; right; by left).
  destruct (Hnoop w1 Hready1 t2 u2 _ Hin eq_refl) as [H1 H2].
  split; [done|]. split; [done|].
  destruct Hready1 as (rows1 & Hs1 & Hnd1). unfold records. by rewrite Hs1.
Qed.

(** ** Existence check *)

(** C5. On an initialised store, [hash_exists] answers [False] when the
    store holds no record with that hash, and [True] right after an
    [add_hash] of that hash. *)
Theorem hash_exists_before_and_after_insert :
  forall (w : world) (h : string),
    store_initialised w ->
    (records_with h (records w) = [] -> (hash_exists h w).1 = Ok false) /\
    (forall now url, (hash_exists h (add_hash now h url w).2).1 = Ok true).
Proof.
  intros w h [rows Hs]. split.
  - intros Habs. unfold hash_exists. rewrite connect_seen_pdfs, Hs. simpl.
    unfold records in Habs. rewrite Hs in Habs.
    by apply select_hash_false in Habs as ->.
  - intros now url. rewrite (add_hash_records _ _ _ _ _ Hs). simpl.
    unfold hash_exists. rewrite connect_seen_pdfs, seen_pdfs_with_dbs_insert. simpl.
    f_equal. apply select_hash_true. unfold insert_or_ignore. simpl.
    destruct (select_hash h rows) eqn:E.
    + by apply select_hash_true in E.
    + eexists. split; [apply in_or_app; right; by left|done].
Qed.

Lemma hash_exists_read_only_aux (h : string) (w : world) :
  (forall path, seen_pdfs path (hash_exists h w).2 = seen_pdfs path w) /\
  records (hash_exists h w).2 = records w /\
  environ (hash_exists h w).2 = environ w /\
  files (hash_exists h w).2 = files w /\
  dirs (hash_exists h w).2 = dirs w.
Proof.
  assert ((hash_exists h w).2 = connect AppSettings.DB_FILE w) as ->.
  { unfold hash_exists. by destruct (seen_pdfs _ _). }
  split; [intros; apply connect_seen_pdfs|].
  split; [unfold records; by rewrite connect_seen_pdfs|].
  unfold connect. destruct (is_private _); [done|].
  by destruct (dbs w !! _).
Qed.

(** C10. [hash_exists] is read-only: whatever it answers, every database
    file shows the same table [seen_pdfs] with the same records afterwards,
    and the environment, the regular files and the directories are as
    before. *)
Theorem hash_exists_read_only :
  forall (w : world) (h : string),
    let w' := (hash_exists h w).2 in
    (forall path, seen_pdfs path w' = seen_pdfs path w) /\
    records w' = records w /\
    environ w' = environ w /\ files w' = files w /\ dirs w' = dirs w.
Proof.
  intros w h. apply hash_exists_read_only_aux.
Qed.

(** ** Where the store lives *)

Lemma seen_pdfs_with_environ path w e :
  seen_pdfs path (with_environ w e) = seen_pdfs path w.
Proof. reflexivity. Qed.

Lemma connect_with_environ path w e :
  connect path (with_environ w e) = with_environ (connect path w) e.
Proof.
  unfold connect. simpl. destruct (is_private path); [done|].
  by destruct (dbs w !! path).
Qed.

Lemma seen_pdfs_insert_ne w path q db :
  q <> path -> seen_pdfs q (with_dbs w (<[path := db]> (dbs w))) = seen_pdfs q w.
Proof.
  intros Hne. unfold seen_pdfs. simpl. destruct (is_private q); [done|].
  by rewrite lookup_insert_ne.
Qed.

Lemma setup_database_other w q :
  q <> db_file w -> seen_pdfs q (setup_database w).2 = seen_pdfs q w.
Proof.
  intros Hne. unfold setup_database.
  destruct (is_private (db_file w)); simpl; [apply connect_seen_pdfs|].
  destruct (seen_pdfs (db_file w) (connect (db_file w) w)); simpl.
  - apply connect_seen_pdfs.
  - rewrite seen_pdfs_insert_ne by done. apply connect_seen_pdfs.
Qed.

Lemma setup_database_creates w :
  is_private (db_file w) = false ->
  is_Some (seen_pdfs (db_file w) (setup_database w).2).
Proof.
  intros Hp. unfold setup_database. rewrite Hp.
  destruct (seen_pdfs (db_file w) (connect (db_file w) w)) eqn:E; simpl.
  - by rewrite E.
  - unfold seen_pdfs. rewrite Hp. simpl. by rewrite lookup_insert_eq.
Qed.

Lemma add_hash_other now h url w q :
  q <> AppSettings.DB_FILE -> seen_pdfs q (add_hash now h url w).2 = seen_pdfs q w.
Proof.
  intros Hne. unfold add_hash.
  destruct (seen_pdfs AppSettings.DB_FILE (connect AppSettings.DB_FILE w)); simpl.
  - rewrite seen_pdfs_insert_ne by done. apply connect_seen_pdfs.
  - apply connect_seen_pdfs.
Qed.

(** With the variable unset, [setup_database] on a directory without the
    default file leaves a store that is ready, and empty. *)
Lemma setup_database_ready w :
  environ w !! "ssa.db" = None ->
  dbs w !! "ssa.db" = None ->
  store_ready (setup_database w).2 /\ records (setup_database w).2 = [].
Proof.
  intros He Hd.
  assert ((setup_database w).2 =
          with_dbs (connect AppSettings.DB_FILE w)
                   (<[AppSettings.DB_FILE := Some []]> (dbs (connect AppSettings.DB_FILE w))))
    as ->.
  { unfold setup_database, db_file, AppSettings.DB_FILE. rewrite He.
    change (is_private "ssa.db") with false. cbv iota.
    rewrite connect_seen_pdfs. unfold seen_pdfs.
    change (is_private "ssa.db") with false. cbv iota. by rewrite Hd. }
  unfold store_ready, records. rewrite seen_pdfs_with_dbs_insert.
  split; [|done]. exists []. split; [done|]. apply NoDup_nil_2.
Qed.

Lemma db_file_Some w p : environ w !! "ssa.db" = Some p -> db_file w = p.
Proof. unfold db_file, AppSettings.DB_FILE. by intros ->. Qed.


(* ===================================================================== *)
(** * Properties of the Pattern Filter                                    *)
(* ===================================================================== *)

Section PatternFilter.

Context {P : Type} `{Pattern P}.
Implicit Types (data kept : list string) (patterns : list P) (text : string).

Lemma any_search_true patterns text :
  existsb (fun p => search p text) patterns = true <-> matches_any patterns text.
Proof. unfold matches_any. apply existsb_exists. Qed.

Lemma filter_list_nil patterns : filter_list [] patterns = [].
Proof. reflexivity. Qed.

Lemma filter_list_cons text data patterns :
  filter_list (text :: data) patterns =
  if existsb (fun p => search p text) patterns
  then text :: filter_list data patterns
  else filter_list data patterns.
Proof. reflexivity. Qed.

Lemma filter_list_selected data patterns :
  selected patterns data (filter_list data patterns).
Proof.
  induction data as [|text data IH]; [constructor|].
  rewrite filter_list_cons.
  destruct (existsb _ patterns) eqn:E.
  - apply selected_keep; [by apply any_search_true|done].
  - apply selected_drop; [|done].
    intros Hm. apply any_search_true in Hm. congruence.
Qed.

Lemma selected_unique data patterns kept :
  selected patterns data kept -> kept = filter_list data patterns.
Proof.
  induction 1 as [|text data kept Hm _ IH|text data kept Hm _ IH];
    [done| |]; rewrite filter_list_cons.
  - apply any_search_true in Hm. rewrite Hm. by f_equal.
  - destruct (existsb _ patterns) eqn:E; [|done].
    apply any_search_true in E. contradiction.
Qed.

Lemma filter_list_sublist data patterns : sublist (filter_list data patterns) data.
Proof.
  induction data as [|text data IH]; [constructor|].
  rewrite filter_list_cons. destruct (existsb _ patterns).
  - by apply sublist_skip.
  - by apply sublist_cons.
Qed.

Lemma filter_list_In data patterns text :
  In text (filter_list data patterns) <-> In text data /\ matches_any patterns text.
Proof.
  unfold filter_list. rewrite filter_In. by rewrite any_search_true.
Qed.

Lemma filter_list_app data1 data2 patterns :
  filter_list (data1 ++ data2) patterns =
  (filter_list data1 patterns ++ filter_list data2 patterns)%list.
Proof. unfold filter_list. apply List.filter_app. Qed.

(** C6. [filter_list] returns exactly the entries of [data] that some
    pattern's [search] accepts: it is the one list [selected] from [data]
    (every matching entry kept, with its multiplicity and in its place,
    every other entry struck out), hence an order-preserving subsequence of
    [data] whose members are the members of [data] matched by at least one
    pattern. Being a function of [data] and [patterns] alone, it reads and
    changes nothing else. *)
Theorem filter_list_spec :
  forall data patterns,
    (forall kept, selected patterns data kept <-> kept = filter_list data patterns) /\
    sublist (filter_list data patterns) data /\
    (forall text,
        In text (filter_list data patterns) <->
        In text data /\ exists p, In p patterns /\ search p text = true).
Proof.
  intros data patterns. split; [|split].
  - intros kept. split; [apply selected_unique|intros ->; apply filter_list_selected].
  - apply filter_list_sublist.
  - apply filter_list_In.
Qed.

End PatternFilter.

(** ** Literal patterns search anywhere in the text *)

Lemma match_here_prefix ic lit text :
  match_here ic lit text = true <->
  exists m post, text = m ++ post /\ fullmatch_literal ic lit m = true.
Proof.
  revert text. induction lit as [|a lit IH]; intros text; simpl.
  - split; [intros _; by exists "", text|done].
  - destruct text as [|b text].
    + split; [done|]. intros (m & post & Heq & Hm).
      destruct m; [done|]. discriminate.
    + rewrite andb_true_iff, IH. split.
      * intros (Hc & m & post & -> & Hm). exists (String b m), post.
        split; [done|]. simpl. by rewrite Hc.
      * intros (m & post & Heq & Hm). destruct m as [|b' m]; [done|].
        simpl in Heq. injection Heq as <- ->.
        apply andb_true_iff in Hm as [Hc Hm]. eauto.
Qed.

Lemma search_literal_anywhere ic lit text :
  search_literal ic lit text = true <->
  exists pre m post, text = pre ++ m ++ post /\ fullmatch_literal ic lit m = true.
Proof.
  induction text as [|b text IH]; simpl; rewrite orb_true_iff, match_here_prefix.
  - split.
    + intros [(m & post & Heq & Hm)|]; [|done]. by exists "", m, post.
    + intros (pre & m & post & Heq & Hm). left.
      destruct pre; [|done]. by exists m, post.
  - rewrite IH. split.
    + intros [(m & post & Heq & Hm)|(pre & m & post & -> & Hm)].
      * by exists "", m, post.
      * by exists (String b pre), m, post.
    + intros (pre & m & post & Heq & Hm). destruct pre as [|b' pre].
      * left. by exists m, post.
      * right. simpl in Heq. injection Heq as <- ->. by exists pre, m, post.
Qed.

(** The example of the specification, and what tells [search] from
    [fullmatch]. *)
Example filter_list_72hr :
  filter_list ["https://x.test/docs/72hr-schedule.pdf"; "https://x.test/docs/other.pdf";
               "https://x.test/docs/BWI_72HR.pdf"]
              SCHEDULE_72HR_REGEX
  = ["https://x.test/docs/72hr-schedule.pdf"; "https://x.test/docs/BWI_72HR.pdf"].
Proof. reflexivity. Qed.

Example search_is_not_fullmatch :
  let p := {| pattern := "72hr"; IGNORECASE := true |} in
  search p "https://x.test/docs/72hr-schedule.pdf" = true /\
  fullmatch p "https://x.test/docs/72hr-schedule.pdf" = false /\
  fullmatch p "72HR" = true.
Proof. repeat split. Qed.

Lemma filter_list_spec_witness :
  In "https://x.test/docs/72hr-schedule.pdf"
     (filter_list ["https://x.test/docs/72hr-schedule.pdf"; "https://x.test/docs/other.pdf"]
                  SCHEDULE_72HR_REGEX) /\
  ~ In "https://x.test/docs/other.pdf"
     (filter_list ["https://x.test/docs/72hr-schedule.pdf"; "https://x.test/docs/other.pdf"]
                  SCHEDULE_72HR_REGEX).
Proof.
  pose proof (filter_list_spec
                ["https://x.test/docs/72hr-schedule.pdf"; "https://x.test/docs/other.pdf"]
                SCHEDULE_72HR_REGEX) as (_ & _ & Hin).
  split.
  - apply Hin. split; [by left|]. eexists. split; [by left|reflexivity].
  - intros Hno. apply Hin in Hno as (_ & p & [<-|[]] & Hs). discriminate Hs.
Defined.

(* ===================================================================== *)
(** * Properties of the Content Hasher                                    *)
(* ===================================================================== *)

Example sha256_constants :
  length SHA256.K = 64%nat /\
  nth 0 SHA256.K 0%Z = 0x428a2f98%Z /\ nth 63 SHA256.K 0%Z = 0xc67178f2%Z /\
  SHA256.va SHA256.H0 = 0x6a09e667%Z /\ SHA256.vh SHA256.H0 = 0x5be0cd19%Z.
Proof. repeat split. Qed.

Example sha256_empty :
  get_pdf_hash [] = "e3b0c44298fc1c149afbf4c8996fb92427ae41e4649b934ca495991b7852b855".
Proof. vm_compute. reflexivity. Qed.

Example sha256_abc :
  get_pdf_hash (bytes_of_string "abc")
  = "ba7816bf8f01cfea414140de5dae2223b00361a396177a9cb410ff61f20015ad".
Proof. vm_compute. reflexivity. Qed.

Example sha256_two_blocks :
  get_pdf_hash (repeat "a"%byte 100)
  = "2816597888e4a0d3a36b82b83316ab32680eb8f00f8cd3b904d681246d285a0e".
Proof. vm_compute. reflexivity. Qed.

Section ContentHasher.

Import SHA256.

Lemma hex_digit_in_alphabet n : In (hex_digit n) hex_alphabet.
Proof.
  unfold hex_digit.
  assert (Z.to_nat (n mod 16) < 16)%nat as Hlt.
  { pose proof (Z.mod_pos_bound n 16 ltac:(lia)). lia. }
  set (m := Z.to_nat (n mod 16)) in *. clearbody m.
  do 16 (destruct m as [|m]; [simpl; tauto|]). lia.
Qed.

Lemma hex_word_length x : String.length (hex_word x) = 8%nat.
Proof. reflexivity. Qed.

Lemma hex_word_hex x : is_hex_text (hex_word x).
Proof.
  intros c. unfold hex_word. rewrite list_ascii_of_string_of_list_ascii.
  intros Hin. apply in_map_iff in Hin as (i & <- & _). apply hex_digit_in_alphabet.
Qed.

Lemma list_ascii_of_string_app (s t : string) :
  list_ascii_of_string (s ++ t) = (list_ascii_of_string s ++ list_ascii_of_string t)%list.
Proof. induction s as [|c s IH]; simpl; [done|]. by rewrite IH. Qed.

Lemma is_hex_text_app (s t : string) :
  is_hex_text s -> is_hex_text t -> is_hex_text (s ++ t).
Proof.
  intros Hs Ht c. rewrite list_ascii_of_string_app, in_app_iff. intros [?|?]; auto.
Qed.

Lemma string_length_app (s t : string) :
  String.length (s ++ t) = (String.length s + String.length t)%nat.
Proof. induction s as [|c s IH]; simpl; [done|]. by rewrite IH. Qed.

Lemma hexdigest_length msg : String.length (hexdigest msg) = 64%nat.
Proof. unfold hexdigest. cbv zeta. rewrite !string_length_app, !hex_word_length. done. Qed.

Lemma hexdigest_hex msg : is_hex_text (hexdigest msg).
Proof. unfold hexdigest. cbv zeta. repeat apply is_hex_text_app; apply hex_word_hex. Qed.

Lemma hex_texts_complete s :
  is_hex_text s -> In s (hex_texts (String.length s)).
Proof.
  induction s as [|c s IH]; intros Hs; [by left|].
  change (In (String c s)
    (flat_map (fun c => map (String c) (hex_texts (String.length s))) hex_alphabet)).
  apply in_flat_map. exists c. split.
  - apply Hs. by left.
  - apply in_map, IH. intros c' Hc'. apply Hs. by right.
Qed.

(** Among more texts than there are digests, two have the same digest. *)
Lemma repeated_image {A : Type} (f : A -> string) (inputs : list A) (range : list string) :
  (forall x, In x inputs -> In (f x) range) ->
  (length range < length inputs)%nat ->
  exists i j x y, (i < j)%nat /\ inputs !! i = Some x /\ inputs !! j = Some y /\ f x = f y.
Proof.
  revert range. induction inputs as [|x inputs IH]; intros range Hin Hlt; [simpl in Hlt; lia|].
  destruct (in_dec string_dec (f x) (map f inputs)) as [Hdup|Hfresh].
  - apply in_map_iff in Hdup as (y & Hy & Hiny).
    apply list_elem_of_In, list_elem_of_lookup in Hiny as [j Hj].
    exists 0%nat, (S j), x, y. repeat split; [lia|done|done].
  - destruct (IH (remove string_dec (f x) range)) as (i & j & a & b & Hij & Hi & Hj & Hab).
    + intros y Hy. apply in_in_remove; [|apply Hin; by right].
      intros Heq. apply Hfresh. rewrite <- Heq. by apply in_map.
    + assert (In (f x) range) as Hx by (apply Hin; by left).
      pose proof (remove_length_lt string_dec range (f x) Hx). simpl in Hlt. lia.
    + exists (S i), (S j), a, b. repeat split; [lia|done|done|done].
Qed.

Lemma zeros_lookup (n i : nat) :
  (i < n)%nat -> map zeros (seq 0 n) !! i = Some (zeros i).
Proof.
  intros Hi. rewrite list_lookup_fmap.
  rewrite lookup_seq_lt by done. done.
Qed.

(** Two different inputs with one digest exist. *)
Lemma get_pdf_hash_collides :
  exists a b : list byte, a <> b /\ get_pdf_hash a = get_pdf_hash b.
Proof.
  set (range := hex_texts 64).
  set (inputs := map zeros (seq 0 (S (length range)))).
  destruct (repeated_image get_pdf_hash inputs range) as (i & j & a & b & Hij & Hi & Hj & Hab).
  - intros x _. unfold range, get_pdf_hash.
    rewrite <- (hexdigest_length x). apply hex_texts_complete, hexdigest_hex.
  - unfold inputs. rewrite length_map, length_seq. lia.
  - exists a, b. split; [|done].
    assert (j < S (length range))%nat as Hjlt.
    { apply lookup_lt_Some in Hj. unfold inputs in Hj.
      by rewrite length_map, length_seq in Hj. }
    unfold inputs in Hi, Hj.
    rewrite zeros_lookup in Hi by lia. rewrite zeros_lookup in Hj by lia.
    injection Hi as <-. injection Hj as <-.
    intros Heq. apply (f_equal (@length byte)) in Heq.
    unfold zeros in Heq. rewrite !repeat_length in Heq. lia.
Qed.

End ContentHasher.



(* ===================================================================== *)
(** * Properties of the Link Extractor                                    *)
(* ===================================================================== *)

Section LinkExtractorProperties.

Variable html_parser : string -> list node.
Variable urlparse_path : string -> result string.
Variable urljoin : string -> string -> result string.

Local Abbreviation scan_links := (scan_links urlparse_path urljoin).
Local Abbreviation scan_hrefs := (scan_hrefs urlparse_path urljoin).
Local Abbreviation href_ok := (href_ok urlparse_path urljoin).
Local Abbreviation href_has_pdf_path := (href_has_pdf_path urlparse_path).
Local Abbreviation resolve_all := (resolve_all urljoin).
Local Abbreviation get_pdf_links := (get_pdf_links html_parser urlparse_path urljoin).

Implicit Types (url href : string) (hs pdf_links : list string) (links : list node).

Lemma scan_links_hrefs url links pdf_links :
  scan_links url links pdf_links = scan_hrefs url (omap str_href links) pdf_links.
Proof.
  revert pdf_links. induction links as [|link links IH]; intros pdf_links; [done|].
  destruct link as [name attrs children|text]; simpl; [|apply IH].
  unfold str_href. simpl.
  destruct (attrs !! "href") as [[href|l]|]; simpl; try apply IH.
  destruct (urlparse_path href) as [path|e]; [|done].
  destruct (endswith path ".pdf"); [|apply IH].
  destruct (urljoin url href); [apply IH|done].
Qed.

Lemma scan_hrefs_ok url hs pdf_links :
  forallb (href_ok url) hs = true ->
  scan_hrefs url hs pdf_links =
    ((pdf_links ++ resolve_all url (List.filter href_has_pdf_path hs))%list, None).
Proof.
  revert pdf_links. induction hs as [|href hs IH]; intros pdf_links Hok; simpl.
  - by rewrite app_nil_r.
  - simpl in Hok. apply andb_true_iff in Hok as [Hh Hok].
    unfold href_ok in Hh. unfold href_has_pdf_path.
    destruct (urlparse_path href) as [path|e]; [|done].
    destruct (endswith path ".pdf"); [|by apply IH].
    unfold resolve_all. simpl.
    destruct (urljoin url href) as [u|e]; [|done].
    rewrite IH by done. by rewrite <- app_assoc.
Qed.

Lemma scan_hrefs_fail url hs pdf_links out e :
  scan_hrefs url hs pdf_links = (out, Some e) ->
  exists hs1 h hs2,
    hs = (hs1 ++ h :: hs2)%list /\
    forallb (href_ok url) hs1 = true /\
    href_ok url h = false /\
    out = (pdf_links ++ resolve_all url (List.filter href_has_pdf_path hs1))%list.
Proof.
  revert pdf_links. induction hs as [|href hs IH]; intros pdf_links Hs; simpl in Hs; [done|].
  destruct (href_ok url href) eqn:Hh.
  - assert (scan_hrefs url hs
               (pdf_links ++ resolve_all url (List.filter href_has_pdf_path [href]))%list
             = (out, Some e)) as Hrest.
    { unfold href_ok in Hh. unfold href_has_pdf_path, resolve_all. simpl.
      destruct (urlparse_path href) as [path|e']; [|done].
      destruct (endswith path ".pdf"); [|by rewrite app_nil_r].
      simpl. by destruct (urljoin url href). }
    apply IH in Hrest as (hs1 & h & hs2 & -> & Hok & Hbad & ->).
    exists (href :: hs1), h, hs2. split; [done|]. split; [simpl; by rewrite Hh|].
    split; [done|].
    change (href :: hs1) with ([href] ++ hs1)%list.
    rewrite List.filter_app. unfold resolve_all at 3. rewrite omap_app.
    by rewrite <- app_assoc.
  - exists [], href, hs. split; [done|]. split; [done|]. split; [done|].
    simpl. rewrite app_nil_r.
    unfold href_ok in Hh.
    destruct (urlparse_path href) as [path|e']; [|by injection Hs as <- _].
    destruct (endswith path ".pdf"); [|done].
    destruct (urljoin url href); [done|by injection Hs as <- _].
Qed.

Lemma resolve_all_Forall2 url hs :
  forallb (href_ok url) hs = true ->
  Forall2 (fun href u => urljoin url href = Ok u)
          (List.filter href_has_pdf_path hs)
          (resolve_all url (List.filter href_has_pdf_path hs)).
Proof.
  induction hs as [|href hs IH]; intros Hok; simpl; [constructor|].
  simpl in Hok. apply andb_true_iff in Hok as [Hh Hok].
  unfold href_ok in Hh.
  destruct (urlparse_path href) as [path|e] eqn:Hp; [|done].
  assert (href_has_pdf_path href = endswith path ".pdf") as ->
    by (unfold href_has_pdf_path; by rewrite Hp).
  destruct (endswith path ".pdf") eqn:He; [|by apply IH].
  unfold resolve_all. simpl.
  destruct (urljoin url href) as [u|e] eqn:Hj; [|done].
  constructor; [done|by apply IH].
Qed.

Lemma get_pdf_links_success url kwargs status_code text :
  is_Some (kwargs !! "headers") ->
  is_success status_code = true ->
  get_pdf_links url kwargs (Response status_code text) =
    Ok (scan_hrefs url (hrefs (html_parser text)) []).1.
Proof.
  intros [h Hh] Hs. unfold get_pdf_links, kwargs_headers, raise_for_status.
  rewrite Hh, Hs. by rewrite scan_links_hrefs.
Qed.

Lemma get_pdf_links_never_raises url kwargs response :
  is_Some (kwargs !! "headers") ->
  exists pdf_links, get_pdf_links url kwargs response = Ok pdf_links.
Proof.
  intros [h Hh]. unfold get_pdf_links, kwargs_headers. rewrite Hh.
  destruct response as [status_code text|e]; [|by eexists].
  destruct (raise_for_status status_code); by eexists.
Qed.

End LinkExtractorProperties.

Section LinkExtractorClaims.

Variable html_parser : string -> list node.
Variable urlparse_path : string -> result string.
Variable urljoin : string -> string -> result string.

Local Abbreviation scan_links := (scan_links urlparse_path urljoin).
Local Abbreviation href_ok := (href_ok urlparse_path urljoin).
Local Abbreviation href_has_pdf_path := (href_has_pdf_path urlparse_path).
Local Abbreviation resolve_all := (resolve_all urljoin).
Local Abbreviation get_pdf_links := (get_pdf_links html_parser urlparse_path urljoin).

Lemma hrefs_document_order soup :
  hrefs soup = omap anchor_href (document_order soup).
Proof.
  unfold hrefs, find_all_a_href.
  induction (document_order soup) as [|n l IH]; [done|].
  destruct n as [name attrs children|text]; [|exact IH].
  cbn [List.filter is_anchor_with_href anchor_href omap list_omap].
  destruct (String.eqb name "a"); [|exact IH].
  destruct (attrs !! "href") as [[href|vs]|] eqn:E; cbn [andb].
  - cbn [omap list_omap]. unfold str_href at 1. cbn [get_href]. rewrite E.
    by rewrite IH.
  - cbn [omap list_omap]. unfold str_href at 1. cbn [get_href]. rewrite E.
    exact IH.
  - exact IH.
Qed.

(** C2, as the code has it. On a 2xx answer whose hrefs all parse,
    [get_pdf_links] returns, in document order, one URL for every element
    [a] with a string [href] whose own path (the path of the href as
    written, before resolution) ends in [.pdf], compared as it stands:
    that URL is the href joined to the page URL. Elements without [href]
    are not looked at. *)
Theorem get_pdf_links_resolves_matching_hrefs :
  forall url kwargs status_code text,
    is_Some (kwargs !! "headers") ->
    is_success status_code = true ->
    forallb (href_ok url) (hrefs (html_parser text)) = true ->
    hrefs (html_parser text) = omap anchor_href (document_order (html_parser text)) /\
    exists pdf_links,
      get_pdf_links url kwargs (Response status_code text) = Ok pdf_links /\
      Forall2 (fun href absolute_url => urljoin url href = Ok absolute_url)
              (List.filter href_has_pdf_path (hrefs (html_parser text)))
              pdf_links.
Proof.
  intros url kwargs status_code text Hk Hs Hok.
  split; [apply hrefs_document_order|].
  rewrite get_pdf_links_success by done.
  rewrite scan_hrefs_ok by done. simpl.
  eexists. split; [done|]. by apply resolve_all_Forall2.
Qed.

(** C4, as the code has it. Called with headers, [get_pdf_links] never
    raises. When the request fails, with whatever exception, or is answered
    with a status outside 2xx, it returns the empty list. When an href of
    the page fetched makes the loop raise, it returns the links gathered
    from the hrefs before that one. *)
Theorem get_pdf_links_failure_policy :
  forall url kwargs response,
    is_Some (kwargs !! "headers") ->
    (exists pdf_links, get_pdf_links url kwargs response = Ok pdf_links) /\
    (forall e, response = GetFails e -> get_pdf_links url kwargs response = Ok []) /\
    (forall status_code text,
        response = Response status_code text ->
        is_success status_code = false ->
        get_pdf_links url kwargs response = Ok []) /\
    (forall status_code text out e,
        response = Response status_code text ->
        is_success status_code = true ->
        scan_links url (find_all_a_href (html_parser text)) [] = (out, Some e) ->
        get_pdf_links url kwargs response = Ok out /\
        exists hs1 h hs2,
          hrefs (html_parser text) = (hs1 ++ h :: hs2)%list /\
          forallb (href_ok url) hs1 = true /\
          href_ok url h = false /\
          out = resolve_all url (List.filter href_has_pdf_path hs1)).
Proof.
  intros url kwargs response [h Hh].
  unfold get_pdf_links, kwargs_headers. rewrite Hh.
  split; [|split; [|split]].
  - destruct response as [status_code text|e]; [|by eexists].
    destruct (raise_for_status status_code); by eexists.
  - by intros e ->.
  - intros status_code text -> Hs. unfold raise_for_status. by rewrite Hs.
  - intros status_code text out e -> Hs Hscan. unfold raise_for_status. rewrite Hs.
    rewrite Hscan. split; [done|].
    rewrite scan_links_hrefs in Hscan.
    apply scan_hrefs_fail in Hscan as (hs1 & h' & hs2 & Heq & Hok & Hbad & ->).
    by exists hs1, h', hs2.
Qed.

End LinkExtractorClaims.

(* ===================================================================== *)
(** * Properties of the Downloader                                        *)
(* ===================================================================== *)

Section Downloader.

Implicit Types (w : world) (p q save_path url : string) (chunks : list (list byte)).

Lemma write_all_files p chunks w content :
  files w !! p = Some content ->
  files (Posix.write_all p chunks w) !! p = Some (content ++ concat chunks)%list.
Proof.
  revert w content. induction chunks as [|chunk chunks IH]; intros w content Hp; simpl.
  - by rewrite app_nil_r.
  - rewrite (IH _ (content ++ chunk)%list).
    + by rewrite <- app_assoc.
    + unfold Posix.write. simpl. by rewrite lookup_alter_eq, Hp.
Qed.

Lemma write_all_frame p chunks w :
  environ (Posix.write_all p chunks w) = environ w /\
  dbs (Posix.write_all p chunks w) = dbs w /\
  dirs (Posix.write_all p chunks w) = dirs w /\
  forall q, q <> p -> files (Posix.write_all p chunks w) !! q = files w !! q.
Proof.
  revert w. induction chunks as [|chunk chunks IH]; intros w; simpl; [done|].
  destruct (IH (Posix.write p chunk w)) as (He & Hd & Hdir & Hf).
  repeat split; [done|done|done|].
  intros q Hq. rewrite Hf by done. unfold Posix.write. simpl.
  by rewrite lookup_alter_ne.
Qed.

Lemma makedirs_frame d w r w1 :
  Posix.makedirs d w = (r, w1) ->
  environ w1 = environ w /\ dbs w1 = dbs w /\ files w1 = files w /\
  (forall e, r = Raise e -> w1 = w).
Proof.
  unfold Posix.makedirs. intros H.
  destruct (negb (Posix.nonempty d)); [by injection H as <- <-|].
  destruct (existsb _ _); by injection H as <- <-.
Qed.

Lemma open_wb_frame p w r w1 :
  Posix.open_wb p w = (r, w1) ->
  environ w1 = environ w /\ dbs w1 = dbs w /\ dirs w1 = dirs w /\
  (forall q, q <> p -> files w1 !! q = files w !! q) /\
  (forall e, r = Raise e -> w1 = w) /\
  (r = Ok tt -> files w1 !! p = Some []).
Proof.
  unfold Posix.open_wb. intros H.
  destruct (_ || _ || _); [by injection H as <- <-|].
  destruct (_ && _ && _); [by injection H as <- <-|].
  injection H as <- <-. simpl. repeat split; try done.
  - intros q Hq. by rewrite lookup_insert_ne.
  - intros _. by rewrite lookup_insert_eq.
Qed.

(** Whatever happens, the download leaves the environment and the
    databases alone, and every file but the destination. *)
Lemma download_pdf_frame url save_path kwargs answer w :
  let w' := (download_pdf url save_path kwargs answer w).2 in
  environ w' = environ w /\ dbs w' = dbs w /\
  forall q, q <> save_path -> files w' !! q = files w !! q.
Proof.
  unfold download_pdf.
  destruct (kwargs_headers kwargs); [|done].
  destruct answer as [status_code chunks broken|e]; [|done].
  destruct (raise_for_status status_code); [|done].
  destruct (Posix.makedirs _ w) as [r1 w1] eqn:E1.
  apply makedirs_frame in E1 as (He1 & Hd1 & Hf1 & _).
  destruct r1 as [[]|e1]; [|simpl; by rewrite He1, Hd1, Hf1].
  destruct (Posix.open_wb save_path w1) as [r2 w2] eqn:E2.
  apply open_wb_frame in E2 as (He2 & Hd2 & _ & Hf2 & _).
  destruct r2 as [[]|e2].
  - 
    destruct (write_all_frame save_path chunks w2) as (He3 & Hd3 & _ & Hf3).
    assert (environ (Posix.write_all save_path chunks w2) = environ w) as He by congruence.
    assert (dbs (Posix.write_all save_path chunks w2) = dbs w) as Hd by congruence.
    assert (forall q, q <> save_path ->
                      files (Posix.write_all save_path chunks w2) !! q = files w !! q) as Hf.
    { intros q Hq. rewrite Hf3, Hf2 by done. by rewrite Hf1. }
    by destruct broken.
  - simpl. rewrite He2, Hd2, He1, Hd1. repeat split; [done..|].
    intros q Hq. rewrite Hf2 by done. by rewrite Hf1.
Qed.

(** Called with headers, the download does not raise. *)
Lemma download_pdf_never_raises url save_path kwargs answer w :
  is_Some (kwargs !! "headers") ->
  exists r, (download_pdf url save_path kwargs answer w).1 = Ok r.
Proof.
  intros [h Hh]. unfold download_pdf, kwargs_headers. rewrite Hh.
  destruct answer as [status_code chunks broken|e]; [|by eexists].
  destruct (raise_for_status status_code); [|by eexists].
  destruct (Posix.makedirs _ w) as [[[]|e1] w1]; [|by eexists].
  destruct (Posix.open_wb save_path w1) as [[[]|e2] w2]; [|by eexists].
  destruct broken; by eexists.
Qed.

(** A path comes back only as the destination, after a 2xx response whose
    whole body was written there. *)
Lemma download_pdf_returns_path url save_path kwargs answer w p :
  (download_pdf url save_path kwargs answer w).1 = Ok (Some p) ->
  p = save_path /\
  exists status_code chunks,
    answer = StreamResponse status_code chunks None /\
    is_success status_code = true /\
    files (download_pdf url save_path kwargs answer w).2 !! save_path
      = Some (concat chunks).
Proof.
  unfold download_pdf. destruct (kwargs_headers kwargs); [|done].
  destruct answer as [status_code chunks broken|e]; [|done].
  unfold raise_for_status. destruct (is_success status_code) eqn:Hs; [|done].
  destruct (Posix.makedirs _ w) as [[[]|e1] w1]; [|done].
  destruct (Posix.open_wb save_path w1) as [[[]|e2] w2] eqn:E2; [|done].
  apply open_wb_frame in E2 as (_ & _ & _ & _ & _ & Hnew).
  destruct broken as [e|]; [done|]. simpl. intros [= <-]. split; [done|].
  exists status_code, chunks. repeat split; [done|].
  by rewrite (write_all_files save_path chunks w2 [] (Hnew eq_refl)).
Qed.

Local Ltac by_cases :=
  repeat match goal with |- _ /\ _ => split end;
  intros; simplify_eq; try done; try congruence;
  try match goal with H : _ \/ _ |- _ => destruct H as [?|[? ?]]; simplify_eq end.


End Downloader.

(* ===================================================================== *)
(** * Properties of the Pipeline Orchestrator                             *)
(* ===================================================================== *)

Lemma string_app_cons (c : ascii) (u s : string) : String c u ++ s = String c (u ++ s).
Proof. reflexivity. Qed.

Lemma string_app_inv_tail (s u u' : string) : u ++ s = u' ++ s -> u = u'.
Proof.
  revert u'. induction u as [|c u IH]; intros [|c' u'] H.
  - done.
  - apply (f_equal String.length) in H.
    rewrite !string_length_app in H. simpl in H. lia.
  - apply (f_equal String.length) in H.
    rewrite !string_length_app in H. simpl in H. lia.
  - rewrite !string_app_cons in H. injection H as -> H. f_equal. by apply IH.
Qed.

Lemma download_path_inj (u u' : string) :
  download_path u = download_path u' -> u = u'.
Proof.
  unfold download_path, AppSettings.DOWNLOAD_DIR. intros H.
  cbv [String.append] in H. injection H as H. by apply string_app_inv_tail in H.
Qed.

Lemma hash_exists_files h w : files (hash_exists h w).2 = files w.
Proof. by destruct (hash_exists_read_only_aux h w) as (_ & _ & _ & ? & _). Qed.

Lemma add_hash_files now h url w : files (add_hash now h url w).2 = files w.
Proof.
  unfold add_hash.
  assert (files (connect AppSettings.DB_FILE w) = files w) as Hc.
  { unfold connect. destruct (is_private _); [done|]. by destruct (dbs w !! _). }
  by destruct (seen_pdfs _ _).
Qed.

Section OrchestratorProperties.

Variable user_agent : string.
Variable stream : nat -> string -> stream_outcome.
Variable uuid4 : nat -> string.
Variable now : nat -> Z.

Local Abbreviation main_kwargs := (main_kwargs user_agent).
Local Abbreviation fetch_all := (fetch_all user_agent stream uuid4).
Local Abbreviation store_all := (store_all now).
Local Abbreviation distinct_uuids := (distinct_uuids uuid4).

Implicit Types (i k : nat) (links : list string) (pdfs : list (option string))
  (w : world) (p q url : string).

Lemma main_kwargs_headers : is_Some (main_kwargs !! "headers").
Proof. eexists. apply lookup_singleton_eq. Qed.

Lemma download_never_raises url p answer w :
  exists r, (download_pdf url p main_kwargs answer w).1 = Ok r.
Proof.
  apply download_pdf_never_raises, main_kwargs_headers.
Qed.

(** Stage 3 never raises and gives one outcome per link. *)
Lemma fetch_all_total i links w :
  exists pdfs, (fetch_all i links w).1 = Ok pdfs /\ length pdfs = length links.
Proof.
  revert i w. induction links as [|url links IH]; intros i w; simpl; [by exists []|].
  destruct (download_never_raises url (download_path (uuid4 i)) (stream i url) w)
    as [r Hr].
  destruct (download_pdf _ _ _ _ w) as [res w1]. simpl in Hr. subst res.
  destruct (IH (S i) w1) as (pdfs & Hp & Hlen).
  destruct (fetch_all (S i) links w1) as [res w2]. simpl in Hp. subst res.
  exists (r :: pdfs). simpl. by rewrite Hlen.
Qed.

(** The [k]-th outcome is what [download_pdf] returned for the [k]-th
    link, called in the world the downloads before it left. *)
Lemma fetch_all_aligned i links w pdfs w' :
  fetch_all i links w = (Ok pdfs, w') ->
  forall k url,
    links !! k = Some url ->
    exists r,
      pdfs !! k = Some r /\
      (download_pdf url (download_path (uuid4 (i + k))) main_kwargs
                    (stream (i + k) url) (fetch_all i (firstn k links) w).2).1 = Ok r.
Proof.
  revert i w pdfs w'. induction links as [|l links IH]; intros i w pdfs w' H k url Hk;
    [done|].
  simpl in H.
  destruct (download_pdf l _ _ _ w) as [[r|e] w1] eqn:E1; [|done].
  destruct (fetch_all (S i) links w1) as [[rs|e] w2] eqn:E2; [|done].
  injection H as <- <-.
  destruct k as [|k]; simpl in Hk.
  - injection Hk as ->. exists r. simpl. by rewrite Nat.add_0_r, E1.
  - destruct (IH _ _ _ _ E2 k url Hk) as (r' & Ha & Hb).
    exists r'. split; [done|]. simpl. rewrite E1.
    destruct (fetch_all_total (S i) (firstn k links) w1) as (ps & Hps & _).
    destruct (fetch_all (S i) (firstn k links) w1) as [res wk] eqn:E3.
    simpl in Hps. subst res. simpl.
    replace (i + S k)%nat with (S i + k)%nat by lia. done.
Qed.

(** Stage 3 leaves the environment and the databases alone, and every
    file that is not one of its destinations. *)
Lemma fetch_all_frame i links w :
  environ (fetch_all i links w).2 = environ w /\
  dbs (fetch_all i links w).2 = dbs w /\
  forall q,
    (forall k, (k < length links)%nat -> q <> download_path (uuid4 (i + k))) ->
    files (fetch_all i links w).2 !! q = files w !! q.
Proof.
  revert i w. induction links as [|l links IH]; intros i w; simpl; [done|].
  pose proof (download_pdf_frame l (download_path (uuid4 i)) main_kwargs (stream i l) w)
    as (He & Hd & Hf).
  destruct (download_pdf l _ _ _ w) as [[r|e] w1] eqn:E1; simpl in *.
  2:{ repeat split; [done|done|]. intros q Hq. apply Hf.
      specialize (Hq 0%nat ltac:(lia)). by rewrite Nat.add_0_r in Hq. }
  destruct (IH (S i) w1) as (He2 & Hd2 & Hf2).
  assert (forall q,
    (forall k, (k < S (length links))%nat -> q <> download_path (uuid4 (i + k))) ->
    files (fetch_all (S i) links w1).2 !! q = files w !! q) as Hfiles.
  { intros q Hq. rewrite Hf2.
    - apply Hf. specialize (Hq 0%nat ltac:(lia)). by rewrite Nat.add_0_r in Hq.
    - intros k Hk. specialize (Hq (S k) ltac:(lia)).
      by replace (S i + k)%nat with (i + S k)%nat by lia. }
  destruct (fetch_all (S i) links w1) as [[rs|e] w2]; simpl in *.
  - repeat split; [congruence|congruence|done].
  - repeat split; [congruence|congruence|done].
Qed.

End OrchestratorProperties.

Lemma add_hash_records_cases now h url w r :
  In r (records (add_hash now h url w).2) ->
  In r (records w) \/ r = {| hash := h; source_url := url; first_seen_utc := now |}.
Proof.
  unfold add_hash, records at 1.
  rewrite connect_seen_pdfs.
  destruct (seen_pdfs AppSettings.DB_FILE w) as [rows|] eqn:E; simpl.
  - rewrite seen_pdfs_with_dbs_insert. unfold records. rewrite E.
    unfold insert_or_ignore. destruct (select_hash _ rows); [by left|].
    rewrite in_app_iff. simpl. intros [?|[<-|[]]]; auto.
  - rewrite connect_seen_pdfs, E. done.
Qed.

Lemma add_hash_records_mono now h url w r :
  In r (records w) -> In r (records (add_hash now h url w).2).
Proof.
  unfold add_hash, records at 2.
  rewrite connect_seen_pdfs. unfold records.
  destruct (seen_pdfs AppSettings.DB_FILE w) as [rows|] eqn:E; simpl; [|done].
  rewrite seen_pdfs_with_dbs_insert.
  unfold insert_or_ignore. destruct (select_hash _ rows); [done|].
  rewrite in_app_iff. by left.
Qed.

Lemma add_hash_Ok_stored now h url w w' :
  add_hash now h url w = (Ok tt, w') -> select_hash h (records w') = true.
Proof.
  unfold add_hash. rewrite connect_seen_pdfs.
  destruct (seen_pdfs AppSettings.DB_FILE w) as [rows|] eqn:E; [|done].
  intros [= <-]. unfold records. rewrite seen_pdfs_with_dbs_insert.
  apply select_hash_true. unfold insert_or_ignore. simpl.
  destruct (select_hash h rows) eqn:Hs.
  - by apply select_hash_true in Hs.
  - eexists. split; [apply in_or_app; right; by left|done].
Qed.

Lemma hash_exists_raises h w e w' :
  hash_exists h w = (Raise e, w') -> e = OperationalError.
Proof. unfold hash_exists. destruct (seen_pdfs _ _); congruence. Qed.

Lemma add_hash_raises now h url w e w' :
  add_hash now h url w = (Raise e, w') -> e = OperationalError.
Proof. unfold add_hash. destruct (seen_pdfs _ _); congruence. Qed.

Lemma hash_exists_Ok h w b w' :
  hash_exists h w = (Ok b, w') -> select_hash h (records w) = b.
Proof.
  unfold hash_exists, records. rewrite connect_seen_pdfs.
  destruct (seen_pdfs AppSettings.DB_FILE w); congruence.
Qed.

Section RecordStage.

Variable stream : nat -> string -> stream_outcome.
Variable now : nat -> Z.

Local Abbreviation store_all := (store_all now).
Local Abbreviation holds_bodies := (holds_bodies stream).
Local Abbreviation pairs_body_with_link := (pairs_body_with_link stream now).

Implicit Types (i k : nat) (links : list string) (pdfs : list (option string))
  (w : world) (p q url : string).

Lemma holds_bodies_tail i x pdfs url links w w' :
  files w' = files w ->
  holds_bodies i (x :: pdfs) (url :: links) w ->
  holds_bodies (S i) pdfs links w'.
Proof.
  intros Hf H k p Hk. destruct (H (S k) p Hk) as (u & s & c & Hl & Hs & Hok & Hfile).
  exists u, s, c. rewrite Hf. replace (S i + k)%nat with (i + S k)%nat by lia. done.
Qed.

Lemma pairs_body_with_link_tail i url links r :
  pairs_body_with_link (S i) links r -> pairs_body_with_link i (url :: links) r.
Proof.
  intros (k & u & s & c & Hl & Hs & Hok & ->). exists (S k), u, s, c.
  replace (i + S k)%nat with (S i + k)%nat by lia. done.
Qed.

(** Whatever the record stage adds to the store pairs a body with its own
    link. *)
Lemma store_all_sound i pdfs links w r :
  holds_bodies i pdfs links w ->
  In r (records (store_all i pdfs links w).2) ->
  In r (records w) \/ pairs_body_with_link i links r.
Proof.
  revert i links w. induction pdfs as [|x pdfs IH]; intros i links w H Hin.
  { destruct links; simpl in Hin; by left. }
  destruct links as [|url links]; [simpl in Hin; by left|].
  assert (forall w', files w' = files w -> records w' = records w ->
            In r (records (store_all (S i) pdfs links w').2) ->
            In r (records w) \/ pairs_body_with_link i (url :: links) r) as Hskip.
  { intros w' Hf Hr Hin'. apply IH in Hin'.
    - destruct Hin' as [?|?]; [left; congruence|right; by apply pairs_body_with_link_tail].
    - by apply (holds_bodies_tail i x pdfs url links w w'). }
  simpl in Hin. destruct x as [p|]; [|by apply (Hskip w)].
  destruct (falsy (Some p)); [by apply (Hskip w)|].
  destruct (H 0%nat p eq_refl) as (u & s & c & [= <-] & Hs & Hok & Hfile).
  unfold Posix.read_rb in Hin. rewrite Hfile in Hin.
  pose proof (hash_exists_read_only_aux (get_pdf_hash (concat c)) w)
    as (_ & Hr1 & _ & Hf1 & _).
  destruct (hash_exists (get_pdf_hash (concat c)) w) as [[[|]|e] w1]; simpl in *.
  - by apply (Hskip w1).
  - pose proof (add_hash_files (now i) (get_pdf_hash (concat c)) url w1) as Hf2.
    pose proof (add_hash_records_cases (now i) (get_pdf_hash (concat c)) url w1) as Hr2.
    destruct (add_hash (now i) (get_pdf_hash (concat c)) url w1) as [[[]|e] w2];
      simpl in *.
    + apply IH in Hin.
      * destruct Hin as [Hin|Hin]; [|right; by apply pairs_body_with_link_tail].
        apply Hr2 in Hin as [Hin| ->]; [left; congruence|].
        right. exists 0%nat, url, s, c. by rewrite Nat.add_0_r in *.
      * apply (holds_bodies_tail i (Some p) pdfs url links w w2); [congruence|done].
    + apply Hr2 in Hin as [Hin| ->]; [left; congruence|].
      right. exists 0%nat, url, s, c. by rewrite Nat.add_0_r in *.
  - left. congruence.
Qed.

(** With lists of one length, [zip(..., strict=True)] does not raise. *)
Lemma store_all_zip_strict i pdfs links w :
  length pdfs = length links ->
  (store_all i pdfs links w).1 <> Raise ValueError.
Proof.
  revert i links w. induction pdfs as [|x pdfs IH]; intros i [|url links] w Hlen;
    simpl in *; try done.
  injection Hlen as Hlen.
  destruct x as [p|]; [|by apply IH].
  destruct (falsy (Some p)); [by apply IH|].
  unfold Posix.read_rb. destruct (files w !! p) as [body|]; [|done].
  destruct (hash_exists (get_pdf_hash body) w) as [[[|]|e] w1] eqn:E1; simpl.
  - by apply IH.
  - destruct (add_hash (now i) (get_pdf_hash body) url w1) as [[[]|e] w2] eqn:E2; simpl.
    + by apply IH.
    + apply add_hash_raises in E2 as ->. done.
  - apply hash_exists_raises in E1 as ->. done.
Qed.

Lemma store_all_records_mono i pdfs links w r :
  In r (records w) -> In r (records (store_all i pdfs links w).2).
Proof.
  revert i links w. induction pdfs as [|x pdfs IH]; intros i [|url links] w Hin;
    simpl; try done.
  destruct x as [p|]; [|by apply IH].
  destruct (falsy (Some p)); [by apply IH|].
  unfold Posix.read_rb. destruct (files w !! p) as [body|]; [|done].
  pose proof (hash_exists_read_only_aux (get_pdf_hash body) w) as (_ & Hr1 & _).
  destruct (hash_exists (get_pdf_hash body) w) as [[[|]|e] w1]; simpl in *.
  - apply IH. congruence.
  - pose proof (add_hash_records_mono (now i) (get_pdf_hash body) url w1 r) as Hr2.
    destruct (add_hash (now i) (get_pdf_hash body) url w1) as [[[]|e] w2]; simpl in *.
    + apply IH, Hr2. congruence.
    + apply Hr2. congruence.
  - congruence.
Qed.

Lemma select_hash_mono h rows rows' :
  (forall r, In r rows -> In r rows') ->
  select_hash h rows = true -> select_hash h rows' = true.
Proof.
  intros Hsub Hs. apply select_hash_true in Hs as (r & Hin & Hr).
  apply select_hash_true. exists r. auto.
Qed.

(** When the record stage ends normally, the digest of every body it was
    handed is in the store. *)
Lemma store_all_complete i pdfs links w :
  holds_bodies i pdfs links w ->
  (store_all i pdfs links w).1 = Ok tt ->
  forall k p,
    pdfs !! k = Some (Some p) -> p <> EmptyString ->
    exists body,
      files w !! p = Some body /\
      select_hash (get_pdf_hash body) (records (store_all i pdfs links w).2) = true.
Proof.
  revert i links w. induction pdfs as [|x pdfs IH]; intros i links w H Hok k p Hk Hp;
    [done|].
  destruct links as [|url links]; [by destruct x|].
  assert (forall w', files w' = files w ->
            holds_bodies (S i) pdfs links w') as Htail.
  { intros w' Hf. by apply (holds_bodies_tail i x pdfs url links w w'). }
  simpl in Hok |- *.
  destruct x as [p0|].
  2:{ destruct k as [|k]; [done|]. by apply (IH (S i) links w (Htail w eq_refl) Hok k p). }
  destruct (falsy (Some p0)) eqn:Hfalsy.
  { destruct k as [|k]; simpl in Hk.
    - injection Hk as ->. simpl in Hfalsy. apply String.eqb_eq in Hfalsy. done.
    - by apply (IH (S i) links w (Htail w eq_refl) Hok k p). }
  destruct (H 0%nat p0 eq_refl) as (u & s & c & [= <-] & _ & _ & Hfile).
  unfold Posix.read_rb in *. rewrite Hfile in *.
  pose proof (hash_exists_read_only_aux (get_pdf_hash (concat c)) w)
    as (_ & Hr1 & _ & Hf1 & _).
  destruct (hash_exists (get_pdf_hash (concat c)) w) as [[[|]|e] w1] eqn:E1;
    simpl in *; [| |done].
  - destruct k as [|k]; simpl in Hk.
    + injection Hk as ->. exists (concat c). split; [done|].
      apply (select_hash_mono _ (records w1)).
      * intros r. apply store_all_records_mono.
      * apply hash_exists_Ok in E1. congruence.
    + destruct (IH (S i) links w1 (Htail w1 Hf1) Hok k p Hk Hp) as (body & Hb & Hs).
      exists body. split; [congruence|done].
  - pose proof (add_hash_files (now i) (get_pdf_hash (concat c)) url w1) as Hf2.
    destruct (add_hash (now i) (get_pdf_hash (concat c)) url w1) as [[[]|e] w2] eqn:E2;
      simpl in *; [|done].
    destruct k as [|k]; simpl in Hk.
    + injection Hk as ->. exists (concat c). split; [done|].
      apply (select_hash_mono _ (records w2)).
      * intros r. apply store_all_records_mono.
      * by apply (add_hash_Ok_stored (now i) _ url w1).
    + assert (files w2 = files w) as Hf by congruence.
      destruct (IH (S i) links w2 (Htail w2 Hf) Hok k p Hk Hp) as (body & Hb & Hs).
      exists body. split; [congruence|done].
Qed.

End RecordStage.

Section Run.

Variable html_parser : string -> list node.
Variable urlparse_path : string -> result string.
Variable urljoin : string -> string -> result string.
Variable user_agent : string.
Variable dotenv : option (gmap string string).
Variable page : get_outcome.
Variable stream : nat -> string -> stream_outcome.
Variable uuid4 : nat -> string.
Variable now : nat -> Z.

Local Abbreviation main_kwargs := (main_kwargs user_agent).
Local Abbreviation fetch_all := (fetch_all user_agent stream uuid4).
Local Abbreviation store_all := (store_all now).
Local Abbreviation holds_bodies := (holds_bodies stream).
Local Abbreviation pairs_body_with_link := (pairs_body_with_link stream now).
Local Abbreviation pdf_links := (pdf_links html_parser urlparse_path urljoin user_agent page).
Local Abbreviation pdf_72hr_links :=
  (pdf_72hr_links html_parser urlparse_path urljoin user_agent page).
Local Abbreviation startup := (startup dotenv).
Local Abbreviation main :=
  (main html_parser urlparse_path urljoin user_agent dotenv page stream uuid4 now).
Local Abbreviation world_before := (world_before user_agent stream uuid4).

Implicit Types (i k : nat) (links : list string) (pdfs : list (option string))
  (w : world) (p q url : string).

(** After stage 3, every path in the outcomes is the destination of its
    own position and holds the body streamed for the link there. *)
Lemma fetch_all_holds_bodies i links w pdfs w' :
  NoDup (map uuid4 (seq i (length links))) ->
  fetch_all i links w = (Ok pdfs, w') ->
  holds_bodies i pdfs links w' /\
  forall k p, pdfs !! k = Some (Some p) -> p = download_path (uuid4 (i + k)).
Proof.
  revert i w pdfs w'. induction links as [|url links IH]; intros i w pdfs w' Hnd H.
  { injection H as <- <-. split; intros k p Hk; by destruct k. }
  simpl in H, Hnd. apply NoDup_cons in Hnd as [Hfresh Hnd].
  pose proof (fun p => download_pdf_returns_path url (download_path (uuid4 i)) main_kwargs
                          (stream i url) w p) as Hsome.
  destruct (download_pdf url _ _ _ w) as [[r|e] w1] eqn:E1; [|done].
  pose proof (fetch_all_frame user_agent stream uuid4 (S i) links w1) as (_ & _ & Hframe).
  destruct (fetch_all (S i) links w1) as [[rs|e] w2] eqn:E2; [|done].
  injection H as <- <-. simpl in Hsome, Hframe.
  destruct (IH _ _ _ _ Hnd E2) as [IHb IHp].
  split.
  - intros [|k] p Hk; simpl in Hk.
    + injection Hk as ->.
      destruct (Hsome p eq_refl) as (-> & s & c & Hs & Hok & Hfile).
      exists url, s, c. rewrite Nat.add_0_r. repeat split; [done..|].
      rewrite Hframe; [done|].
      intros k Hk Heq. apply download_path_inj in Heq.
      apply Hfresh. rewrite Heq. apply list_elem_of_fmap. exists (S i + k)%nat.
      split; [done|]. apply elem_of_seq. lia.
    + destruct (IHb k p Hk) as (u & s & c & ?).
      exists u, s, c. by replace (i + S k)%nat with (S i + k)%nat by lia.
  - intros [|k] p Hk; simpl in Hk.
    + injection Hk as ->. destruct (Hsome p eq_refl) as [-> _]. by rewrite Nat.add_0_r.
    + replace (i + S k)%nat with (S i + k)%nat by lia. by apply IHp.
Qed.

Lemma pdf_links_never_raises : exists links, pdf_links = Ok links.
Proof.
  apply get_pdf_links_never_raises, main_kwargs_headers.
Qed.


End Run.

(* ===================================================================== *)
(** * More on the Dedup Store                                             *)
(* ===================================================================== *)

Section DedupStoreMore.

Implicit Types (w : world) (rows : list SeenPdfRecord) (r : SeenPdfRecord)
  (h url path : string) (now : Z).

Lemma connect_frame path w :
  environ (connect path w) = environ w /\
  files (connect path w) = files w /\
  dirs (connect path w) = dirs w.
Proof.
  unfold connect. destruct (is_private path); [done|]. by destruct (dbs w !! path).
Qed.

Lemma seen_pdfs_Some_dbs path w rows :
  seen_pdfs path w = Some rows ->
  is_private path = false /\ dbs w !! path = Some (Some rows).
Proof.
  unfold seen_pdfs. destruct (is_private path); [done|].
  destruct (dbs w !! path) as [db|]; [|done]. by intros ->.
Qed.

Lemma setup_database_world w :
  (setup_database w).2 =
  if is_private (db_file w) then w
  else match seen_pdfs (db_file w) w with
       | Some _ => w
       | None => with_dbs w (<[db_file w := Some []]> (dbs w))
       end.
Proof.
  unfold setup_database.
  destruct (is_private (db_file w)) eqn:Hp.
  - unfold connect. by rewrite Hp.
  - rewrite connect_seen_pdfs.
    destruct (seen_pdfs (db_file w) w) as [rows|] eqn:Hs; simpl.
    + apply seen_pdfs_Some_dbs in Hs as [_ Hd]. by apply (connect_existing _ _ _ Hd).
    + unfold connect. rewrite Hp.
      destruct (dbs w !! db_file w) eqn:Hd; [done|]. simpl.
      destruct w as [e d f ds]. unfold with_dbs. simpl in *. f_equal.
      apply insert_insert_eq.
Qed.


(** X2. [setup_database] destroys nothing: a table that exists, in
    whatever database file, keeps its records, and the environment, the
    regular files and the directories are as before. *)
Theorem setup_database_keeps_records :
  forall w path rows,
    seen_pdfs path w = Some rows ->
    seen_pdfs path (setup_database w).2 = Some rows /\
    environ (setup_database w).2 = environ w /\
    files (setup_database w).2 = files w /\
    dirs (setup_database w).2 = dirs w.
Proof.
  intros w path rows Hs. rewrite setup_database_world.
  destruct (is_private (db_file w)) eqn:Hp; [done|].
  destruct (seen_pdfs (db_file w) w) as [rows'|] eqn:Hs'; [done|].
  split; [|done].
  destruct (decide (path = db_file w)) as [->|Hne]; [congruence|].
  by rewrite seen_pdfs_insert_ne.
Qed.

Lemma records_add_hash now h url w rows :
  seen_pdfs AppSettings.DB_FILE w = Some rows ->
  records (add_hash now h url w).2 =
  insert_or_ignore {| hash := h; source_url := url; first_seen_utc := now |} rows.
Proof.
  intros Hs. rewrite (add_hash_records _ _ _ _ _ Hs). unfold records. simpl.
  by rewrite seen_pdfs_with_dbs_insert.
Qed.

Lemma records_with_app h rows rows' :
  records_with h (rows ++ rows') = (records_with h rows ++ records_with h rows')%list.
Proof. unfold records_with. apply filter_app. Qed.

(** X3. Inserting a hash the store does not hold returns normally and
    appends exactly one record, made of that hash, the URL given and the
    time of the call; the records already there keep their place. *)
Theorem add_hash_new_appends :
  forall w now h url,
    store_initialised w ->
    records_with h (records w) = [] ->
    (add_hash now h url w).1 = Ok tt /\
    records (add_hash now h url w).2 =
      (records w ++ [{| hash := h; source_url := url; first_seen_utc := now |}])%list /\
    records_with h (records (add_hash now h url w).2) =
      [{| hash := h; source_url := url; first_seen_utc := now |}].
Proof.
  intros w now h url [rows Hs] Habs.
  assert (records w = rows) as Hr by (unfold records; by rewrite Hs).
  rewrite Hr in *.
  assert (records (add_hash now h url w).2 =
          (rows ++ [{| hash := h; source_url := url; first_seen_utc := now |}])%list) as Hnew.
  { rewrite (records_add_hash _ _ _ _ _ Hs). unfold insert_or_ignore. simpl.
    apply select_hash_false in Habs. by rewrite Habs. }
  split; [by rewrite (add_hash_records _ _ _ _ _ Hs)|]. split; [done|].
  rewrite Hnew, records_with_app, Habs. simpl.
  unfold records_with. rewrite filter_cons. simpl. by rewrite decide_True.
Qed.

Lemma select_hash_insert_other h h' r rows :
  hash r = h -> h' <> h ->
  select_hash h' (insert_or_ignore r rows) = select_hash h' rows.
Proof.
  intros Hr Hne. unfold insert_or_ignore.
  destruct (select_hash (hash r) rows); [done|].
  unfold select_hash. rewrite existsb_app. simpl.
  destruct (String.eqb_spec (hash r) h') as [Heq|_]; [congruence|].
  by rewrite !orb_false_r.
Qed.

(** X4. Inserting one hash does not change what the existence check
    answers for any other hash, whether or not the table exists. *)
Theorem add_hash_other_hashes :
  forall w now h url h',
    h' <> h ->
    (hash_exists h' (add_hash now h url w).2).1 = (hash_exists h' w).1.
Proof.
  intros w now h url h' Hne.
  unfold hash_exists. rewrite !connect_seen_pdfs.
  destruct (seen_pdfs AppSettings.DB_FILE w) as [rows|] eqn:Hs.
  - rewrite (add_hash_records _ _ _ _ _ Hs). simpl.
    rewrite seen_pdfs_with_dbs_insert. simpl. f_equal.
    by apply (select_hash_insert_other h).
  - unfold add_hash. rewrite connect_seen_pdfs, Hs. simpl.
    by rewrite connect_seen_pdfs, Hs.
Qed.

(** X6. On a default file without the table, the existence check and the
    insertion both raise [OperationalError]; nothing is recorded, and an
    empty database file is left behind at the default path, where there
    may have been none. *)
Theorem store_operations_without_table :
  forall w now h url,
    seen_pdfs AppSettings.DB_FILE w = None ->
    (hash_exists h w).1 = Raise OperationalError /\
    (add_hash now h url w).1 = Raise OperationalError /\
    (hash_exists h w).2 = (add_hash now h url w).2 /\
    dbs (hash_exists h w).2 !! AppSettings.DB_FILE = Some None /\
    records (add_hash now h url w).2 = [].
Proof.
  intros w now h url Hs.
  unfold hash_exists, add_hash. rewrite connect_seen_pdfs, Hs. simpl.
  repeat split.
  - unfold seen_pdfs in Hs. unfold connect.
    change (is_private AppSettings.DB_FILE) with false in *. cbv iota in *.
    destruct (dbs w !! AppSettings.DB_FILE) as [db|] eqn:Hd.
    + cbv iota. subst db. exact Hd.
    + simpl. by rewrite lookup_insert_eq.
  - unfold records. by rewrite connect_seen_pdfs, Hs.
Qed.

End DedupStoreMore.

Section Insertions.

Implicit Types (w : world) (rows : list SeenPdfRecord) (r : SeenPdfRecord)
  (h url : string) (now : Z) (items : list (Z * string * string)).

Lemma add_hashes_cons item items w :
  add_hashes (item :: items) w =
  add_hashes items (add_hash item.1.1 item.1.2 item.2 w).2.
Proof. reflexivity. Qed.

Lemma add_hashes_app items items' w :
  add_hashes (items ++ items') w = add_hashes items' (add_hashes items w).
Proof. unfold add_hashes. apply fold_left_app. Qed.

Lemma add_hash_initialised now h url w :
  store_initialised w -> store_initialised (add_hash now h url w).2.
Proof.
  intros [rows Hs]. rewrite (add_hash_records _ _ _ _ _ Hs). simpl.
  unfold store_initialised. by rewrite seen_pdfs_with_dbs_insert.
Qed.

Lemma records_add_hash_cases now h url w :
  store_initialised w ->
  (select_hash h (records w) = true /\ records (add_hash now h url w).2 = records w) \/
  (select_hash h (records w) = false /\
   records (add_hash now h url w).2 =
     (records w ++ [{| hash := h; source_url := url; first_seen_utc := now |}])%list).
Proof.
  intros [rows Hs]. rewrite (records_add_hash _ _ _ _ _ Hs).
  unfold records. rewrite Hs. unfold insert_or_ignore. simpl.
  destruct (select_hash h rows); [by left|by right].
Qed.

Lemma records_with_add_hash_other now h h' url w :
  h' <> h ->
  records_with h (records (add_hash now h' url w).2) = records_with h (records w).
Proof.
  intros Hne.
  destruct (seen_pdfs AppSettings.DB_FILE w) as [rows|] eqn:Hs.
  - destruct (records_add_hash_cases now h' url w) as [[_ ->]|[_ ->]];
      [by exists rows|done|].
    rewrite records_with_app. unfold records_with at 2. rewrite filter_cons. simpl.
    rewrite decide_False by done. by rewrite app_nil_r.
  - unfold add_hash, records. rewrite !connect_seen_pdfs, Hs. simpl.
    by rewrite connect_seen_pdfs, Hs.
Qed.

Lemma records_with_nonempty_select h rows r :
  records_with h rows = [r] -> select_hash h rows = true.
Proof.
  intros Hr. apply not_false_iff_true. intros Hf.
  apply select_hash_false in Hf. congruence.
Qed.

(** X5. Whatever is inserted afterwards, in whatever order, a store that
    satisfies the PRIMARY KEY invariant keeps satisfying it, keeps every
    record it had, unchanged and in place, and holds every hash that was
    inserted. *)
Theorem add_hashes_lifecycle :
  forall items w,
    store_ready w ->
    store_ready (add_hashes items w) /\
    (exists more, records (add_hashes items w) = (records w ++ more)%list) /\
    (forall item, In item items ->
                  select_hash item.1.2 (records (add_hashes items w)) = true).
Proof.
  induction items as [|[[t h] u] items IH]; intros w Hready.
  - split; [done|]. split; [exists []; by rewrite app_nil_r|]. by intros ? [].
  - rewrite add_hashes_cons. simpl.
    pose proof (add_hash_ready t h u w Hready) as Hready1.
    destruct (IH _ Hready1) as (Hr & [more Hmore] & Hall).
    assert (store_initialised w) as Hinit
      by (destruct Hready as (rows & Hs & _); by exists rows).
    split; [done|]. split.
    + destruct (records_add_hash_cases t h u w Hinit) as [[_ Heq]|[_ Heq]];
        rewrite Heq in Hmore.
      * by exists more.
      * exists ({| hash := h; source_url := u; first_seen_utc := t |} :: more).
        by rewrite Hmore, <- app_assoc.
    + intros item [<-|Hin]; [|by apply Hall]. simpl.
      apply select_hash_true.
      assert (select_hash h (records (add_hash t h u w).2) = true) as Hs.
      { destruct (records_add_hash_cases t h u w Hinit) as [[Hs ->]|[_ ->]]; [done|].
        apply select_hash_true. eexists. split; [apply in_or_app; right; by left|done]. }
      apply select_hash_true in Hs as (r & Hin & Hr').
      exists r. split; [|done]. rewrite Hmore. apply in_or_app. by left.
Qed.

Lemma add_hashes_others items w h :
  Forall (fun item => item.1.2 <> h) items ->
  records_with h (records (add_hashes items w)) = records_with h (records w).
Proof.
  revert w. induction items as [|[[t h'] u] items IH]; intros w Hall; [done|].
  apply Forall_cons in Hall as [Hne Hall]. rewrite add_hashes_cons, IH by done.
  simpl. by apply records_with_add_hash_other.
Qed.

Lemma add_hashes_initialised items w :
  store_initialised w -> store_initialised (add_hashes items w).
Proof.
  revert w. induction items as [|item items IH]; intros w Hi; [done|].
  rewrite add_hashes_cons. by apply IH, add_hash_initialised.
Qed.

Lemma add_hashes_settled items w h r :
  store_initialised w ->
  records_with h (records w) = [r] ->
  records_with h (records (add_hashes items w)) = [r].
Proof.
  revert w. induction items as [|[[t h'] u] items IH]; intros w Hi Hr; [done|].
  rewrite add_hashes_cons. simpl. apply IH; [by apply add_hash_initialised|].
  destruct (decide (h' = h)) as [->|Hne].
  - destruct (records_add_hash_cases t h u w Hi) as [[_ ->]|[Hf _]]; [done|].
    apply records_with_nonempty_select in Hr. congruence.
  - by rewrite records_with_add_hash_other.
Qed.

(** X7. The first insertion of a hash wins: in any sequence of
    insertions into a store that did not hold the hash, the one record
    with that hash carries the URL and the time of the first insertion of
    it, whatever later insertions of the same hash say. *)
Theorem first_insertion_wins :
  forall w h before t u after,
    store_initialised w ->
    records_with h (records w) = [] ->
    Forall (fun item => item.1.2 <> h) before ->
    records_with h (records (add_hashes (before ++ (t, h, u) :: after) w)) =
      [{| hash := h; source_url := u; first_seen_utc := t |}].
Proof.
  intros w h before t u after Hi Habs Hbefore.
  rewrite add_hashes_app, add_hashes_cons. simpl.
  pose proof (add_hashes_initialised before w Hi) as Hi1.
  pose proof (add_hashes_others before w h Hbefore) as Hstill.
  rewrite Habs in Hstill.
  apply add_hashes_settled; [by apply add_hash_initialised|].
  destruct (records_add_hash_cases t h u (add_hashes before w) Hi1) as [[Ht _]|[_ ->]].
  - apply select_hash_false in Hstill. congruence.
  - rewrite records_with_app, Hstill. simpl.
    unfold records_with. rewrite filter_cons. simpl. by rewrite decide_True.
Qed.

End Insertions.

(* ===================================================================== *)
(** * More on the Pattern Filter                                          *)
(* ===================================================================== *)

Section PatternFilterMore.

Context {P : Type} `{Pattern P}.
Implicit Types (data : list string) (patterns : list P) (text : string).

Lemma filter_list_keeps_all data patterns :
  Forall (matches_any patterns) data -> filter_list data patterns = data.
Proof.
  induction 1 as [|text data Hm _ IH]; [done|].
  rewrite filter_list_cons. apply any_search_true in Hm. rewrite Hm. by f_equal.
Qed.

Lemma filter_list_all_match data patterns :
  Forall (matches_any patterns) (filter_list data patterns).
Proof.
  apply Forall_forall. intros text Hin. apply list_elem_of_In in Hin.
  by apply filter_list_In in Hin as [_ Hm].
Qed.

(** X8. With no pattern at all nothing is kept, and from no data nothing
    comes; with patterns that accept every entry, the data come back as
    they are. *)
Theorem filter_list_edge_cases :
  forall data patterns,
    filter_list data ([] : list P) = [] /\
    filter_list [] patterns = [] /\
    (Forall (fun text => exists p, In p patterns /\ search p text = true) data ->
     filter_list data patterns = data).
Proof.
  intros data patterns. split; [|split].
  - induction data as [|text data IH]; [done|]. by rewrite filter_list_cons.
  - done.
  - apply filter_list_keeps_all.
Qed.

(** X9. Filtering composes: filtering again with the same patterns
    changes nothing; two filters can be applied in either order; a
    concatenation is filtered piece by piece; and the entries kept under
    two lists of patterns put together are those kept under one or the
    other. *)
Theorem filter_list_composition :
  forall data data' patterns patterns',
    filter_list (filter_list data patterns) patterns = filter_list data patterns /\
    filter_list (filter_list data patterns) patterns' =
      filter_list (filter_list data patterns') patterns /\
    filter_list (data ++ data') patterns =
      (filter_list data patterns ++ filter_list data' patterns)%list /\
    (forall text,
        In text (filter_list data (patterns ++ patterns')) <->
        In text (filter_list data patterns) \/ In text (filter_list data patterns')).
Proof.
  intros data data' patterns patterns'. split; [|split; [|split]].
  - apply filter_list_keeps_all, filter_list_all_match.
  - induction data as [|text data IH]; [done|].
    rewrite !filter_list_cons.
    destruct (existsb (fun p => search p text) patterns) eqn:E1;
      destruct (existsb (fun p => search p text) patterns') eqn:E2;
      rewrite ?filter_list_cons, ?E1, ?E2, IH; done.
  - apply filter_list_app.
  - intros text. rewrite !filter_list_In. unfold matches_any.
    split.
    + intros (Hin & p & Hp & Hs). apply in_app_iff in Hp as [Hp|Hp]; eauto.
    + intros [(Hin & p & Hp & Hs)|(Hin & p & Hp & Hs)];
        (split; [done|]); exists p; (split; [|done]); apply in_app_iff; auto.
Qed.

End PatternFilterMore.

(** ** Letter case and literal patterns *)

Lemma ascii_lower_idempotent c : ascii_lower (ascii_lower c) = ascii_lower c.
Proof. destruct c as [[] [] [] [] [] [] [] []]; reflexivity. Qed.

Lemma char_matches_lower a b :
  char_matches true a (ascii_lower b) = char_matches true a b /\
  char_matches true (ascii_lower a) b = char_matches true a b.
Proof. unfold char_matches. by rewrite !ascii_lower_idempotent. Qed.

Lemma lower_cons c s : Urllib.lower (String c s) = String (ascii_lower c) (Urllib.lower s).
Proof. reflexivity. Qed.

Lemma match_here_lower lit text :
  match_here true lit (Urllib.lower text) = match_here true lit text /\
  match_here true (Urllib.lower lit) text = match_here true lit text.
Proof.
  revert text. induction lit as [|a lit IH]; intros text; [done|].
  destruct text as [|b text]; [done|].
  rewrite !lower_cons. cbn [match_here].
  destruct (IH text) as [-> ->].
  by destruct (char_matches_lower a b) as [-> ->].
Qed.


(* ===================================================================== *)
(** * More on the Link Extractor                                          *)
(* ===================================================================== *)

Lemma substring_0_length (s : string) : String.substring 0 (String.length s) s = s.
Proof. induction s as [|c s IH]; simpl; [done|]. by rewrite IH. Qed.

Lemma substring_skip_app (pre s : string) (m : nat) :
  String.substring (String.length pre) m (pre ++ s) = String.substring 0 m s.
Proof.
  induction pre as [|c pre IH]; [done|].
  rewrite string_app_cons. simpl. exact IH.
Qed.

Lemma substring_split (s : string) (i : nat) :
  (i <= String.length s)%nat ->
  s = String.substring 0 i s ++ String.substring i (String.length s - i) s.
Proof.
  revert i. induction s as [|c s IH]; intros i Hi.
  - simpl in Hi. by replace i with 0%nat by lia.
  - destruct i as [|i].
    + simpl. by rewrite substring_0_length.
    + simpl in Hi |- *. rewrite string_app_cons. f_equal. apply IH. lia.
Qed.

Lemma endswith_app (pre suffix : string) : endswith (pre ++ suffix) suffix = true.
Proof.
  unfold endswith. rewrite string_length_app.
  destruct (Nat.ltb_spec (String.length pre + String.length suffix) (String.length suffix));
    [lia|].
  replace (String.length pre + String.length suffix - String.length suffix)%nat
    with (String.length pre) by lia.
  rewrite substring_skip_app, substring_0_length. apply String.eqb_refl.
Qed.

Lemma endswith_true (s suffix : string) :
  endswith s suffix = true -> exists pre, s = pre ++ suffix.
Proof.
  unfold endswith.
  destruct (Nat.ltb_spec (String.length s) (String.length suffix)) as [|Hle]; [done|].
  intros Heq. apply String.eqb_eq in Heq.
  exists (String.substring 0 (String.length s - String.length suffix) s).
  pose proof (substring_split s (String.length s - String.length suffix) ltac:(lia))
    as Hsplit.
  replace (String.length s - (String.length s - String.length suffix))%nat
    with (String.length suffix) in Hsplit by lia.
  by rewrite Heq in Hsplit.
Qed.

Section LinkExtractorMore.

Variable html_parser : string -> list node.
Variable urlparse_path : string -> result string.
Variable urljoin : string -> string -> result string.

Local Abbreviation scan_hrefs := (scan_hrefs urlparse_path urljoin).
Local Abbreviation get_pdf_links := (get_pdf_links html_parser urlparse_path urljoin).

Implicit Types (url href : string) (hs pdf_links : list string).

Local Abbreviation comes_from url hs absolute_url :=
  (exists href path pre,
      In href hs /\ urlparse_path href = Ok path /\ path = pre ++ ".pdf" /\
      urljoin url href = Ok absolute_url).

Lemma scan_hrefs_sound url hs pdf_links out e :
  scan_hrefs url hs pdf_links = (out, e) ->
  exists more,
    out = (pdf_links ++ more)%list /\
    (length more <= length hs)%nat /\
    forall u, In u more -> comes_from url hs u.
Proof.
  revert pdf_links. induction hs as [|href hs IH]; intros pdf_links Hs; simpl in Hs.
  - injection Hs as <- _. exists []. rewrite app_nil_r. repeat split; [done|]. by intros ? [].
  - assert (forall more : list string,
              (length more <= length hs)%nat ->
              (forall u, In u more -> comes_from url hs u) ->
              (length more <= length (href :: hs))%nat /\
              (forall u, In u more -> comes_from url (href :: hs) u)) as Hweaken.
    { intros more Hlen Hfrom. split; [simpl; lia|].
      intros u Hu. destruct (Hfrom u Hu) as (h & p & pre & Hin & ?).
      exists h, p, pre. split; [by right|done]. }
    destruct (urlparse_path href) as [path|e'] eqn:Hp.
    2:{ injection Hs as <- _. exists []. rewrite app_nil_r.
        repeat split; [simpl; lia|]. by intros ? []. }
    destruct (endswith path ".pdf") eqn:He.
    2:{ destruct (IH _ Hs) as (more & -> & Hlen & Hfrom). exists more.
        split; [done|]. by apply Hweaken. }
    destruct (urljoin url href) as [u0|e'] eqn:Hj.
    2:{ injection Hs as <- _. exists []. rewrite app_nil_r.
        repeat split; [simpl; lia|]. by intros ? []. }
    destruct (IH _ Hs) as (more & -> & Hlen & Hfrom).
    exists (u0 :: more). rewrite <- app_assoc. split; [done|].
    split; [simpl; lia|].
    intros u [<-|Hu].
    + apply endswith_true in He as [pre ->]. exists href, (pre ++ ".pdf"), pre.
      repeat split; [by left|done|done].
    + by apply (Hweaken more Hlen Hfrom).
Qed.

(** X11. Whatever the page and however the call ends, every link
    [get_pdf_links] returns is the join with the page URL of an href found
    on an anchor of the page, whose own path is some text followed by
    exactly [.pdf]; and there are no more links than such hrefs. *)
Theorem get_pdf_links_only_pdf_hrefs :
  forall url kwargs status_code text pdf_links,
    get_pdf_links url kwargs (Response status_code text) = Ok pdf_links ->
    (length pdf_links <= length (hrefs (html_parser text)))%nat /\
    forall absolute_url,
      In absolute_url pdf_links ->
      exists href path pre,
        In href (hrefs (html_parser text)) /\
        urlparse_path href = Ok path /\
        path = pre ++ ".pdf" /\
        urljoin url href = Ok absolute_url.
Proof.
  intros url kwargs status_code text pdf_links.
  unfold get_pdf_links. destruct (kwargs_headers kwargs); [|done].
  destruct (raise_for_status status_code).
  2:{ intros [= <-]. split; [simpl; lia|]. by intros ? []. }
  rewrite scan_links_hrefs. fold (hrefs (html_parser text)).
  destruct (scan_hrefs url (hrefs (html_parser text)) []) as [out e] eqn:Hs.
  intros [= <-]. apply scan_hrefs_sound in Hs as (more & -> & Hlen & Hfrom).
  simpl. split; [done|]. intros u Hu. by apply Hfrom.
Qed.

End LinkExtractorMore.

(* ===================================================================== *)
(** * More on the Downloader                                              *)
(* ===================================================================== *)

Section DownloaderMore.

Implicit Types (w : world) (p q d save_path url : string) (chunks : list (list byte)).

Lemma write_all_dirs p chunks w : dirs (Posix.write_all p chunks w) = dirs w.
Proof. by destruct (write_all_frame p chunks w) as (_ & _ & ? & _). Qed.

Lemma makedirs_dirs d w r w1 :
  Posix.makedirs d w = (r, w1) ->
  dirs w ⊆ dirs w1 /\
  forall x, x ∈ dirs w1 -> x ∈ dirs w \/ In x (Posix.path_prefixes d).
Proof.
  unfold Posix.makedirs. intros H.
  destruct (negb (Posix.nonempty d)); [injection H as <- <-; split; [done|auto]|].
  destruct (existsb _ _); injection H as <- <-; [split; [done|auto]|].
  simpl. split; [set_solver|].
  intros x Hx. apply elem_of_union in Hx as [?|Hx]; [by left|].
  right. apply list_elem_of_In. by apply elem_of_list_to_set in Hx.
Qed.


(** X13. When the body breaks off after some chunks, nothing is cleaned
    up: [None] is returned and the destination holds the chunks received
    so far, end to end, in place of whatever it held. *)
Theorem download_pdf_broken_body_leaves_partial_file :
  forall url save_path kwargs status_code chunks e w,
    is_Some (kwargs !! "headers") ->
    is_success status_code = true ->
    can_save save_path w = true ->
    let answer := StreamResponse status_code chunks (Some e) in
    (download_pdf url save_path kwargs answer w).1 = Ok None /\
    files (download_pdf url save_path kwargs answer w).2 !! save_path
      = Some (concat chunks).
Proof.
  intros url save_path kwargs status_code chunks e w [h Hh] Hs Hcan. cbv zeta.
  unfold download_pdf, kwargs_headers, raise_for_status. rewrite Hh, Hs.
  unfold can_save in Hcan.
  destruct (Posix.makedirs _ w) as [[[]|e1] w1]; [|done].
  destruct (Posix.open_wb save_path w1) as [[[]|e2] w2] eqn:E2; [|done].
  apply open_wb_frame in E2 as (_ & _ & _ & _ & _ & Hnew).
  simpl. split; [done|].
  by rewrite (write_all_files save_path chunks w2 [] (Hnew eq_refl)).
Qed.

Lemma upto_last_absent (c : ascii) (s : string) :
  Str.contains c s = false -> Str.upto_last c s = EmptyString.
Proof.
  induction s as [|a s IH]; [done|]. simpl.
  intros Hc. apply orb_false_iff in Hc as [Ha Hs]. by rewrite Hs, Ha.
Qed.

(** X14. A destination without a directory part, a bare file name, is
    never written: [os.path.dirname] gives the empty name, [os.makedirs]
    refuses it, and whatever the server answers the call returns [None]
    and leaves the world as it was. *)
Theorem download_pdf_needs_directory_part :
  forall url save_path kwargs answer w,
    is_Some (kwargs !! "headers") ->
    Str.contains "/" save_path = false ->
    Posix.dirname save_path = EmptyString /\
    download_pdf url save_path kwargs answer w = (Ok None, w).
Proof.
  intros url save_path kwargs answer w [h Hh] Hbare.
  assert (Posix.dirname save_path = EmptyString) as Hdir.
  { unfold Posix.dirname. by rewrite upto_last_absent. }
  split; [done|].
  unfold download_pdf, kwargs_headers. rewrite Hh, Hdir.
  destruct answer as [status_code chunks broken|e]; [|done].
  by destruct (raise_for_status status_code).
Qed.

End DownloaderMore.

(* ===================================================================== *)
(** * More on the Pipeline Orchestrator                                   *)
(* ===================================================================== *)

Lemma hash_exists_known h w :
  select_hash h (records w) = true -> hash_exists h w = (Ok true, w).
Proof.
  unfold hash_exists, records. rewrite connect_seen_pdfs.
  destruct (seen_pdfs AppSettings.DB_FILE w) as [rows|] eqn:Hs; [|done].
  intros ->. apply seen_pdfs_Some_lookup in Hs. by rewrite (connect_existing _ _ _ Hs).
Qed.

Section RecordStageMore.

Variable stream : nat -> string -> stream_outcome.
Variable now : nat -> Z.

Local Abbreviation store_all := (store_all now).
Local Abbreviation holds_bodies := (holds_bodies stream).

Implicit Types (i k : nat) (links : list string) (pdfs : list (option string))
  (w : world) (p q url : string).

(** The record stage leaves every regular file alone. *)
Lemma store_all_files i pdfs links w :
  files (store_all i pdfs links w).2 = files w.
Proof.
  revert i links w. induction pdfs as [|x pdfs IH]; intros i [|url links] w;
    simpl; try done.
  destruct x as [p|]; [|by apply IH].
  destruct (falsy (Some p)); [by apply IH|].
  unfold Posix.read_rb. destruct (files w !! p) as [body|]; [|done].
  pose proof (hash_exists_files (get_pdf_hash body) w) as Hf1.
  destruct (hash_exists (get_pdf_hash body) w) as [[[|]|e] w1]; simpl in *.
  - by rewrite IH.
  - pose proof (add_hash_files (now i) (get_pdf_hash body) url w1) as Hf2.
    destruct (add_hash (now i) (get_pdf_hash body) url w1) as [[[]|e] w2]; simpl in *.
    + rewrite IH. congruence.
    + congruence.
  - done.
Qed.

(** When every file handed over holds a body whose digest the store
    knows, the record stage ends normally and changes nothing. *)
Lemma store_all_known i pdfs links w :
  length pdfs = length links ->
  (forall k p, pdfs !! k = Some (Some p) ->
               exists body, files w !! p = Some body /\
                            select_hash (get_pdf_hash body) (records w) = true) ->
  store_all i pdfs links w = (Ok tt, w).
Proof.
  revert i links w. induction pdfs as [|x pdfs IH]; intros i [|url links] w Hlen Hknown;
    simpl in *; try done.
  injection Hlen as Hlen.
  assert (forall k p, pdfs !! k = Some (Some p) ->
            exists body, files w !! p = Some body /\
                         select_hash (get_pdf_hash body) (records w) = true) as Htail
    by (intros k p Hk; by apply (Hknown (S k) p)).
  destruct x as [p|]; [|by apply IH].
  destruct (falsy (Some p)); [by apply IH|].
  destruct (Hknown 0%nat p eq_refl) as (body & Hfile & Hsel).
  unfold Posix.read_rb. rewrite Hfile, (hash_exists_known _ _ Hsel). by apply IH.
Qed.

(** Without the table, the first file handed over makes the record stage
    raise [OperationalError]. *)
Lemma store_all_without_table i pdfs links w :
  length pdfs = length links ->
  holds_bodies i pdfs links w ->
  seen_pdfs AppSettings.DB_FILE w = None ->
  (exists k p, pdfs !! k = Some (Some p) /\ p <> EmptyString) ->
  (store_all i pdfs links w).1 = Raise OperationalError.
Proof.
  revert i links w. induction pdfs as [|x pdfs IH];
    intros i [|url links] w Hlen Hbodies Hnone (k & p & Hk & Hp); simpl in *; try done.
  injection Hlen as Hlen.
  assert (holds_bodies (S i) pdfs links w) as Htail
    by (by apply (holds_bodies_tail stream i x pdfs url links w w)).
  assert (k <> 0%nat -> exists k' p', pdfs !! k' = Some (Some p') /\ p' <> EmptyString)
    as Hlater.
  { intros Hk0. destruct k as [|k]; [done|]. by exists k, p. }
  destruct x as [p0|].
  2:{ apply IH; [done..|]. apply Hlater. by intros ->. }
  destruct (falsy (Some p0)) eqn:Hfalsy.
  { apply IH; [done..|]. apply Hlater. intros ->. simpl in Hk. injection Hk as ->.
    simpl in Hfalsy. by apply String.eqb_eq in Hfalsy. }
  destruct (Hbodies 0%nat p0 eq_refl) as (u & s & c & _ & _ & _ & Hfile).
  unfold Posix.read_rb. rewrite Hfile.
  unfold hash_exists. by rewrite connect_seen_pdfs, Hnone.
Qed.

(** The record stage only ever appends to the store. *)
Lemma store_all_grows i pdfs links w :
  store_initialised w ->
  store_initialised (store_all i pdfs links w).2 /\
  exists more, records (store_all i pdfs links w).2 = (records w ++ more)%list.
Proof.
  revert i links w. induction pdfs as [|x pdfs IH]; intros i links w Hinit.
  { destruct links; simpl; (split; [done|]); exists []; by rewrite app_nil_r. }
  destruct links as [|url links];
    [simpl; split; [done|]; exists []; by rewrite app_nil_r|].
  simpl. destruct x as [p|]; [|by apply IH].
  destruct (falsy (Some p)); [by apply IH|].
  unfold Posix.read_rb. destruct (files w !! p) as [body|];
    [|simpl; split; [done|]; exists []; by rewrite app_nil_r].
  pose proof (hash_exists_read_only_aux (get_pdf_hash body) w) as (Hseen & Hr1 & _).
  assert (store_initialised (hash_exists (get_pdf_hash body) w).2) as Hinit1
    by (unfold store_initialised; by rewrite Hseen).
  destruct (hash_exists (get_pdf_hash body) w) as [[[|]|e] w1]; simpl in *.
  - rewrite <- Hr1. by apply IH.
  - pose proof (add_hash_initialised (now i) (get_pdf_hash body) url w1 Hinit1) as Hinit2.
    pose proof (records_add_hash_cases (now i) (get_pdf_hash body) url w1 Hinit1) as Hcases.
    destruct (add_hash (now i) (get_pdf_hash body) url w1) as [[[]|e] w2]; simpl in *.
    + destruct (IH (S i) links w2 Hinit2) as (Hi & more & Hmore). split; [done|].
      destruct Hcases as [[_ Heq]|[_ Heq]]; rewrite Heq, Hr1 in Hmore.
      * by exists more.
      * eexists. rewrite Hmore, <- app_assoc. done.
    + split; [done|]. destruct Hcases as [[_ ->]|[_ ->]]; rewrite Hr1.
      * exists []. by rewrite app_nil_r.
      * by eexists.
  - split; [done|]. exists []. by rewrite Hr1, app_nil_r.
Qed.

End RecordStageMore.

Section RunMore.

Variable html_parser : string -> list node.
Variable urlparse_path : string -> result string.
Variable urljoin : string -> string -> result string.
Variable user_agent : string.
Variable dotenv : option (gmap string string).
Variable page : get_outcome.
Variable stream : nat -> string -> stream_outcome.
Variable uuid4 : nat -> string.
Variable now : nat -> Z.

Local Abbreviation main_kwargs := (main_kwargs user_agent).
Local Abbreviation fetch_all := (fetch_all user_agent stream uuid4).
Local Abbreviation store_all := (store_all now).
Local Abbreviation holds_bodies := (holds_bodies stream).
Local Abbreviation pdf_links := (pdf_links html_parser urlparse_path urljoin user_agent page).
Local Abbreviation pdf_72hr_links :=
  (pdf_72hr_links html_parser urlparse_path urljoin user_agent page).
Local Abbreviation startup := (startup dotenv).
Local Abbreviation main :=
  (main html_parser urlparse_path urljoin user_agent dotenv page stream uuid4 now).

Implicit Types (i k : nat) (links : list string) (pdfs : list (option string))
  (w : world) (p q url : string).

(** The main block, stage by stage. *)
Lemma main_stages w w1 :
  startup w = (Ok tt, w1) ->
  exists pdfs w2,
    fetch_all 0 pdf_72hr_links w1 = (Ok pdfs, w2) /\
    length pdfs = length pdf_72hr_links /\
    dbs w2 = dbs w1 /\
    main w = store_all 0 pdfs pdf_72hr_links w2.
Proof.
  intros Hstart.
  destruct (pdf_links_never_raises html_parser urlparse_path urljoin user_agent page)
    as [links Hlinks].
  assert (pdf_72hr_links = filter_list links SCHEDULE_72HR_REGEX) as Hfiltered.
  { unfold pdf_72hr_links. by rewrite Hlinks. }
  destruct (fetch_all_total user_agent stream uuid4 0 pdf_72hr_links w1)
    as (pdfs & Hfetch & Hlen).
  pose proof (fetch_all_frame user_agent stream uuid4 0 pdf_72hr_links w1) as (_ & Hd & _).
  destruct (fetch_all 0 pdf_72hr_links w1) as [res w2] eqn:E.
  simpl in Hfetch, Hd. subst res.
  exists pdfs, w2. repeat split; [done..|].
  unfold main. by rewrite Hstart, Hlinks, <- Hfiltered, E.
Qed.

Lemma records_same_dbs w w' : dbs w' = dbs w -> records w' = records w.
Proof. intros Hd. unfold records, seen_pdfs. by rewrite Hd. Qed.

(** X15. A run that finds no schedule link does nothing after its
    startup: no download, no record, and it ends as the startup ended. So
    it is when the page cannot be fetched or is answered with a status
    outside 2xx. *)
Theorem main_without_links :
  forall w,
    (pdf_72hr_links = [] -> main w = startup w) /\
    (forall e, page = GetFails e -> pdf_72hr_links = []) /\
    (forall status_code text,
        page = Response status_code text -> is_success status_code = false ->
        pdf_72hr_links = []).
Proof.
  intros w. split; [|split].
  - intros Hnone. unfold main.
    destruct (startup w) as [[[]|e] w1] eqn:Hstart; [|done].
    destruct (pdf_links_never_raises html_parser urlparse_path urljoin user_agent page)
      as [links Hlinks].
    unfold pdf_72hr_links in Hnone. rewrite Hlinks in *. by rewrite Hnone.
  - intros e Hpage. unfold pdf_72hr_links, pdf_links.
    unfold get_pdf_links, kwargs_headers.
    destruct (main_kwargs_headers user_agent) as [h ->]. by rewrite Hpage.
  - intros status_code text Hpage Hs. unfold pdf_72hr_links, pdf_links.
    unfold get_pdf_links, kwargs_headers, raise_for_status.
    destruct (main_kwargs_headers user_agent) as [h ->]. by rewrite Hpage, Hs.
Qed.

(** X16. Nothing is cleaned up and the stages keep to themselves: the
    downloads leave the databases alone, the record stage leaves the
    files alone, and after the run, however the record stage ended, every
    file downloaded still holds the body streamed for its link. *)
Theorem main_keeps_downloads :
  forall w w1,
    distinct_uuids uuid4 (length pdf_72hr_links) ->
    startup w = (Ok tt, w1) ->
    exists pdfs_72hrs w2,
      fetch_all 0 pdf_72hr_links w1 = (Ok pdfs_72hrs, w2) /\
      dbs w2 = dbs w1 /\
      files (main w).2 = files w2 /\
      forall k p,
        pdfs_72hrs !! k = Some (Some p) ->
        exists url status_code chunks,
          pdf_72hr_links !! k = Some url /\
          stream k url = StreamResponse status_code chunks None /\
          files (main w).2 !! p = Some (concat chunks).
Proof.
  intros w w1 Hnd Hstart.
  destruct (main_stages w w1 Hstart) as (pdfs & w2 & Hfetch & Hlen & Hd & Hmain).
  exists pdfs, w2. split; [done|]. split; [done|].
  assert (files (main w).2 = files w2) as Hfiles
    by (rewrite Hmain; apply store_all_files).
  split; [done|]. intros k p Hk.
  destruct (fetch_all_holds_bodies user_agent stream uuid4 0 pdf_72hr_links w1 pdfs w2
              Hnd Hfetch) as [Hbodies _].
  destruct (Hbodies k p Hk) as (url & s & c & Hl & Hs & _ & Hfile).
  exists url, s, c. by rewrite Hfiles.
Qed.

(** X17. A run whose every body served is already known to the store
    ends normally and records nothing: the second run of a scenario adds
    no second record. *)
Theorem main_seen_before_adds_nothing :
  forall w w1,
    distinct_uuids uuid4 (length pdf_72hr_links) ->
    startup w = (Ok tt, w1) ->
    (forall k url status_code chunks,
        pdf_72hr_links !! k = Some url ->
        stream k url = StreamResponse status_code chunks None ->
        is_success status_code = true ->
        select_hash (get_pdf_hash (concat chunks)) (records w1) = true) ->
    (main w).1 = Ok tt /\
    records (main w).2 = records w1 /\
    dbs (main w).2 = dbs w1.
Proof.
  intros w w1 Hnd Hstart Hknown.
  destruct (main_stages w w1 Hstart) as (pdfs & w2 & Hfetch & Hlen & Hd & Hmain).
  destruct (fetch_all_holds_bodies user_agent stream uuid4 0 pdf_72hr_links w1 pdfs w2
              Hnd Hfetch) as [Hbodies _].
  rewrite Hmain, (store_all_known now 0 pdfs pdf_72hr_links w2 Hlen).
  - simpl. split; [done|]. split; [by apply records_same_dbs|done].
  - intros k p Hk. destruct (Hbodies k p Hk) as (url & s & c & Hl & Hs & Hok & Hfile).
    exists (concat c). split; [done|].
    rewrite (records_same_dbs w1 w2 Hd). by apply (Hknown k url s c).
Qed.


Lemma store_all_ends_normally i pdfs links w :
  length pdfs = length links ->
  holds_bodies i pdfs links w ->
  store_initialised w ->
  (store_all i pdfs links w).1 = Ok tt.
Proof.
  revert i links w. induction pdfs as [|x pdfs IH];
    intros i [|url links] w Hlen Hbodies Hinit; simpl in *; try done.
  injection Hlen as Hlen.
  assert (forall w', files w' = files w -> holds_bodies (S i) pdfs links w') as Htail
    by (intros w' Hf; by apply (holds_bodies_tail stream i x pdfs url links w w')).
  destruct x as [p0|]; [|by apply IH; auto].
  destruct (falsy (Some p0)); [by apply IH; auto|].
  destruct (Hbodies 0%nat p0 eq_refl) as (u & s & c & _ & _ & _ & Hfile).
  unfold Posix.read_rb. rewrite Hfile.
  pose proof (hash_exists_read_only_aux (get_pdf_hash (concat c)) w)
    as (Hseen & _ & _ & Hf1 & _).
  assert (store_initialised (hash_exists (get_pdf_hash (concat c)) w).2) as Hinit1
    by (unfold store_initialised; by rewrite Hseen).
  destruct Hinit as [rows Hrows].
  destruct (hash_exists (get_pdf_hash (concat c)) w) as [[[|]|e] w1] eqn:E1; simpl in *.
  - by apply IH; auto.
  - pose proof (add_hash_files (now i) (get_pdf_hash (concat c)) url w1) as Hf2.
    pose proof (add_hash_initialised (now i) (get_pdf_hash (concat c)) url w1 Hinit1)
      as Hinit2.
    destruct Hinit1 as [rows1 Hrows1].
    rewrite (add_hash_records _ _ _ _ _ Hrows1) in *. simpl in *.
    apply IH; [done| |done]. apply Htail. simpl. exact Hf1.
  - unfold hash_exists in E1. rewrite connect_seen_pdfs, Hrows in E1. done.
Qed.

(** What the startup leaves when the store is at its default place and
    the download directory is not barred by a file of that name. *)
Lemma startup_world w :
  db_file (load_dotenv dotenv w) = AppSettings.DB_FILE ->
  files w !! AppSettings.DOWNLOAD_DIR = None ->
  exists w1,
    startup w = (Ok tt, w1) /\
    store_initialised w1 /\
    records w1 = records w /\
    files w1 = files w /\
    AppSettings.DOWNLOAD_DIR ∈ dirs w1.
Proof.
  intros Hdb Hfile. unfold startup.
  set (w0 := load_dotenv dotenv w) in *.
  assert (files w0 = files w /\ dbs w0 = dbs w) as [Hf0 Hd0].
  { unfold w0, load_dotenv. by destruct dotenv. }
  assert ((setup_database w0).1 = Ok tt) as Hok.
  { unfold setup_database. destruct (is_private _); [done|]. by destruct (seen_pdfs _ _). }
  pose proof (setup_database_world w0) as Hw. rewrite Hdb in Hw.
  change (is_private AppSettings.DB_FILE) with false in Hw. cbv iota in Hw.
  destruct (setup_database w0) as [res ws]. simpl in Hok, Hw. subst res.
  assert (store_initialised ws /\ records ws = records w /\ files ws = files w)
    as (Hinit & Hrec & Hfiles).
  { rewrite Hw. unfold store_initialised, records.
    destruct (seen_pdfs AppSettings.DB_FILE w0) as [rows|] eqn:Hs.
    - rewrite Hs. unfold seen_pdfs in *. rewrite <- Hd0, Hs. by eauto.
    - rewrite seen_pdfs_with_dbs_insert. simpl.
      unfold seen_pdfs in *. rewrite <- Hd0, Hs. by eauto. }
  unfold Posix.makedirs.
  change (negb (Posix.nonempty AppSettings.DOWNLOAD_DIR)) with false. cbv iota.
  change (Posix.path_prefixes AppSettings.DOWNLOAD_DIR) with [AppSettings.DOWNLOAD_DIR].
  simpl. rewrite Hfiles, Hfile.
  rewrite bool_decide_eq_false_2 by (by intros [? ?]). simpl.
  eexists. split; [done|]. repeat split; [done..|]. simpl. set_solver.
Qed.


End RunMore.

(* ===================================================================== *)
(** * logger.py                                                           *)
(* ===================================================================== *)

Section LoggingProperties.

Import Logging.

(** X20. [setup_logging] can be called again and again: it sets the root
    level to [DEBUG], installs its console handler only on a root logger
    that has no handler, and otherwise leaves the handlers exactly as they
    are; a second call changes nothing, and the handlers are never more
    than the larger of one and what was there. *)
Theorem setup_logging_idempotent :
  forall root : Logger,
    setup_logging (setup_logging root) = setup_logging root /\
    level (setup_logging root) = DEBUG /\
    (handlers root = [] -> handlers (setup_logging root) = [console_handler]) /\
    (handlers root <> [] -> handlers (setup_logging root) = handlers root) /\
    length (handlers (setup_logging root)) = Nat.max 1 (length (handlers root)).
Proof.
  intros [lvl hs]. unfold setup_logging. simpl.
  destruct hs as [|h hs]; simpl.
  - repeat split; done.
  - repeat split; done.
Qed.

(** X21. After [setup_logging] on a root logger without handlers, a
    record reaches the console exactly when its level is [INFO] or above:
    although the root level is [DEBUG], records below [INFO] are dropped by
    the handler. *)
Theorem setup_logging_console_threshold :
  forall (root : Logger) (record_level : Z),
    handlers root = [] ->
    handled_by (setup_logging root) record_level =
      (if (INFO <=? record_level)%Z then [console_handler] else []) /\
    handled_by (setup_logging root) DEBUG = [] /\
    handled_by (setup_logging root) INFO = [console_handler].
Proof.
  intros [lvl hs] record_level Hnone. simpl in Hnone. subst hs.
  split; [|done].
  unfold handled_by, setup_logging. cbn -[Z.ltb Z.leb]. unfold DEBUG, INFO.
  destruct (Z.ltb_spec record_level 10), (Z.leb_spec 20 record_level);
    try done; exfalso; lia.
Qed.

End LoggingProperties.

Section StartupBarred.

Variable html_parser : string -> list node.
Variable urlparse_path : string -> result string.
Variable urljoin : string -> string -> result string.
Variable user_agent : string.
Variable dotenv : option (gmap string string).
Variable page : get_outcome.
Variable stream : nat -> string -> stream_outcome.
Variable uuid4 : nat -> string.
Variable now : nat -> Z.

Local Abbreviation startup := (startup dotenv).
Local Abbreviation main :=
  (main html_parser urlparse_path urljoin user_agent dotenv page stream uuid4 now).

Lemma setup_database_files w : files (setup_database w).2 = files w.
Proof.
  rewrite setup_database_world. destruct (is_private _); [done|].
  by destruct (seen_pdfs _ w).
Qed.

(** X22. A regular file named like the download directory bars the run:
    [os.makedirs(..., exist_ok=True)] raises, nothing catches it, and the
    run stops there, after [setup_database], with every file as it was. *)
Theorem main_barred_by_file :
  forall w content,
    files w !! AppSettings.DOWNLOAD_DIR = Some content ->
    (startup w).1 = Raise OSError /\
    main w = startup w /\
    (main w).2 = (setup_database (load_dotenv dotenv w)).2 /\
    files (main w).2 = files w.
Proof.
  intros w content Hfile.
  assert (files (load_dotenv dotenv w) = files w) as Hf0
    by (unfold load_dotenv; by destruct dotenv).
  pose proof (setup_database_files (load_dotenv dotenv w)) as Hf1.
  assert (exists w1, setup_database (load_dotenv dotenv w) = (Ok tt, w1)) as [w1 Hs].
  { unfold setup_database. destruct (is_private _); [by eexists|].
    destruct (seen_pdfs _ _); by eexists. }
  rewrite Hs in Hf1. simpl in Hf1.
  assert (startup w = (Raise OSError, w1)) as Hstart.
  { unfold startup. rewrite Hs. unfold Posix.makedirs.
    change (negb (Posix.nonempty AppSettings.DOWNLOAD_DIR)) with false. cbv iota.
    change (Posix.path_prefixes AppSettings.DOWNLOAD_DIR) with [AppSettings.DOWNLOAD_DIR].
    simpl. rewrite Hf1, Hf0, Hfile.
    by rewrite bool_decide_eq_true_2 by (by eexists). }
  assert (main w = startup w) as Hmain by (unfold main; by rewrite Hstart).
  rewrite Hmain, Hstart, Hs. simpl. repeat split; [done..|]. congruence.
Qed.

End StartupBarred.

(* ===================================================================== *)
(** * The store on sample worlds                                          *)
(* ===================================================================== *)

Lemma world_one_ready : store_ready world_one.
Proof.
  exists [{| hash := "aa"; source_url := "http://a/x.pdf"; first_seen_utc := 100 |}].
  split; [vm_compute; reflexivity|].
  unfold unique_hashes. simpl. apply NoDup_singleton.
Defined.

Lemma add_hash_existing_is_noop_witness :
  store_ready world_one /\
  add_hash 200 "aa" "http://b/y.pdf" world_one = (Ok tt, world_one) /\
  records_with "aa" (records world_one) =
    [{| hash := "aa"; source_url := "http://a/x.pdf"; first_seen_utc := 100 |}].
Proof.
  split; [exact world_one_ready|].
  destruct (add_hash_existing_is_noop world_one "aa" world_one_ready) as [H _].
  apply H; [|reflexivity].
  vm_compute. left. reflexivity.
Defined.

Lemma hash_exists_before_and_after_insert_witness :
  store_initialised world_fresh /\
  (hash_exists "aa" world_fresh).1 = Ok false /\
  (hash_exists "aa" (add_hash 100 "aa" "http://a/x.pdf" world_fresh).2).1 = Ok true.
Proof.
  assert (store_initialised world_fresh) as Hi by (exists []; vm_compute; reflexivity).
  split; [exact Hi|].
  destruct (hash_exists_before_and_after_insert world_fresh "aa" Hi) as [H1 H2].
  split; [apply H1; vm_compute; reflexivity|apply H2].
Defined.


(* ===================================================================== *)
(** * The Link Extractor on sample pages                                  *)
(* ===================================================================== *)

(** The page of the specification: only [a.pdf] comes back, resolved. *)
Example get_pdf_links_four_anchors :
  get_pdf_links sample_parser Urllib.urlparse_path Urllib.urljoin
                "https://h.test/dir/page.html" sample_kwargs (Response 200 four_anchors_text)
  = Ok ["https://h.test/dir/a.pdf"].
Proof. vm_compute. reflexivity. Qed.

(** Without [headers] the call raises before it tries anything. *)
Example get_pdf_links_without_headers :
  get_pdf_links sample_parser Urllib.urlparse_path Urllib.urljoin
                "https://h.test/dir/page.html" ∅ (Response 200 four_anchors_text)
  = Raise KeyError.
Proof. vm_compute. reflexivity. Qed.

Lemma get_pdf_links_resolves_matching_hrefs_witness :
  exists pdf_links,
    get_pdf_links sample_parser Urllib.urlparse_path Urllib.urljoin
                  "https://h.test/dir/page.html" sample_kwargs (Response 200 four_anchors_text)
    = Ok pdf_links /\
    Forall2 (fun href absolute_url =>
               Urllib.urljoin "https://h.test/dir/page.html" href = Ok absolute_url)
            (List.filter (href_has_pdf_path Urllib.urlparse_path)
                         (hrefs (sample_parser four_anchors_text)))
            pdf_links.
Proof.
  apply (get_pdf_links_resolves_matching_hrefs
           sample_parser Urllib.urlparse_path Urllib.urljoin
           "https://h.test/dir/page.html" sample_kwargs 200 four_anchors_text).
  - eexists. reflexivity.
  - reflexivity.
  - vm_compute. reflexivity.
Defined.

(** C2, as stated, fails: on a page whose own URL ends in [.pdf], the href
    [?download=1] resolves to a URL whose path ends in [.pdf], yet the
    extractor, which looks at the path of the href itself, returns
    nothing. *)
Lemma get_pdf_links_compares_before_resolving :
  get_pdf_links sample_parser Urllib.urlparse_path Urllib.urljoin
                self_link_url sample_kwargs (Response 200 self_link_text)
  = Ok [] /\
  resolved_pdf_links Urllib.urlparse_path Urllib.urljoin
                     self_link_url (sample_parser self_link_text)
  = ["http://example.com/reports/latest.pdf?download=1"] /\
  get_pdf_links sample_parser Urllib.urlparse_path Urllib.urljoin
                self_link_url sample_kwargs (Response 200 self_link_text)
  <> Ok (resolved_pdf_links Urllib.urlparse_path Urllib.urljoin
                            self_link_url (sample_parser self_link_text)).
Proof.
  assert (get_pdf_links sample_parser Urllib.urlparse_path Urllib.urljoin
            self_link_url sample_kwargs (Response 200 self_link_text) = Ok []) as H1
    by (vm_compute; reflexivity).
  assert (resolved_pdf_links Urllib.urlparse_path Urllib.urljoin
            self_link_url (sample_parser self_link_text)
          = ["http://example.com/reports/latest.pdf?download=1"]) as H2
    by (vm_compute; reflexivity).
  split; [exact H1|]. split; [exact H2|].
  rewrite H1, H2. discriminate.
Qed.

Lemma get_pdf_links_failure_policy_witness :
  get_pdf_links sample_parser Urllib.urlparse_path Urllib.urljoin
                "https://h.test/dir/page.html" sample_kwargs (GetFails RequestError) = Ok [] /\
  get_pdf_links sample_parser Urllib.urlparse_path Urllib.urljoin
                "https://h.test/dir/page.html" sample_kwargs (Response 500 "") = Ok [] /\
  get_pdf_links sample_parser Urllib.urlparse_path Urllib.urljoin
                "https://h.test/dir/page.html" sample_kwargs (Response 200 bad_href_text)
  = Ok ["https://h.test/dir/a.pdf"].
Proof.
  assert (is_Some (sample_kwargs !! "headers")) as Hk by (eexists; reflexivity).
  split; [|split].
  - destruct (get_pdf_links_failure_policy
                sample_parser Urllib.urlparse_path Urllib.urljoin
                "https://h.test/dir/page.html" sample_kwargs (GetFails RequestError) Hk)
      as (_ & H & _).
    by apply (H RequestError).
  - destruct (get_pdf_links_failure_policy
                sample_parser Urllib.urlparse_path Urllib.urljoin
                "https://h.test/dir/page.html" sample_kwargs (Response 500 "") Hk)
      as (_ & _ & H & _).
    by apply (H 500%Z "").
  - destruct (get_pdf_links_failure_policy
                sample_parser Urllib.urlparse_path Urllib.urljoin
                "https://h.test/dir/page.html" sample_kwargs (Response 200 bad_href_text) Hk)
      as (_ & _ & _ & H).
    apply (H 200%Z bad_href_text ["https://h.test/dir/a.pdf"] ValueError);
      [reflexivity|reflexivity|vm_compute; reflexivity].
Defined.

(** C4, as stated, fails: the second href makes [urlparse] raise
    [ValueError]; the failure is caught, and the link found before it is
    returned, not the empty list. *)
Lemma get_pdf_links_keeps_links_found_before_failure :
  scan_links Urllib.urlparse_path Urllib.urljoin "https://h.test/dir/page.html"
             (find_all_a_href (sample_parser bad_href_text)) []
  = (["https://h.test/dir/a.pdf"], Some ValueError) /\
  get_pdf_links sample_parser Urllib.urlparse_path Urllib.urljoin
                "https://h.test/dir/page.html" sample_kwargs (Response 200 bad_href_text)
  <> Ok [].
Proof.
  split; [vm_compute; reflexivity|].
  assert (get_pdf_links sample_parser Urllib.urlparse_path Urllib.urljoin
            "https://h.test/dir/page.html" sample_kwargs (Response 200 bad_href_text)
          = Ok ["https://h.test/dir/a.pdf"]) as -> by (vm_compute; reflexivity).
  discriminate.
Qed.

(* ===================================================================== *)
(** * The Downloader and the Orchestrator on a sample run                 *)
(* ===================================================================== *)


(** A 404 leaves no file behind. *)
Example download_pdf_404 :
  download_pdf "https://x.test/a.pdf" "pdf_downloads/a.pdf" sample_kwargs
               (StreamResponse 404 [] None) world_empty
  = (Ok None, world_empty).
Proof. reflexivity. Qed.

(** A destination without a directory part cannot be saved:
    [os.makedirs("")] raises, and the handler returns [None]. *)
Example download_pdf_bare_file_name :
  download_pdf "https://x.test/a.pdf" "a.pdf" sample_kwargs
               (StreamResponse 200 sample_body None) world_empty
  = (Ok None, world_empty).
Proof. vm_compute. reflexivity. Qed.

(** A body that breaks off leaves what was written and returns [None]. *)
Example download_pdf_broken_body :
  let r := download_pdf "https://x.test/a.pdf" "pdf_downloads/a.pdf" sample_kwargs
                        (StreamResponse 200 sample_body (Some RequestError)) world_empty in
  r.1 = Ok None /\ files r.2 !! "pdf_downloads/a.pdf" = Some (concat sample_body).
Proof. vm_compute. split; reflexivity. Qed.

(** The run of the specification's scenario: three PDF links, two of them
    72-hour schedules, the first served and the second answered 404. One
    record is written, with the URL of the first; a second run adds
    none. *)
Example sample_main_records :
  (sample_main world_empty).1 = Ok tt /\
  records (sample_main world_empty).2 =
    [{| hash := get_pdf_hash (concat sample_body);
        source_url := "https://www.amc.af.mil/docs/BWI_72HR.pdf";
        first_seen_utc := 1762214400000000 |}] /\
  records (sample_main (sample_main world_empty).2).2 =
  records (sample_main world_empty).2.
Proof. vm_compute. repeat split; reflexivity. Qed.


(* ===================================================================== *)
(** * The further properties on sample worlds                             *)
(* ===================================================================== *)

Lemma setup_database_keeps_records_witness :
  seen_pdfs "ssa.db" (setup_database world_one).2 =
    Some [{| hash := "aa"; source_url := "http://a/x.pdf"; first_seen_utc := 100 |}].
Proof.
  apply (setup_database_keeps_records world_one "ssa.db"). vm_compute. reflexivity.
Defined.

Lemma world_fresh_initialised : store_initialised world_fresh.
Proof. exists []. vm_compute. reflexivity. Defined.

Lemma world_fresh_ready : store_ready world_fresh.
Proof. exists []. split; [vm_compute; reflexivity|apply NoDup_nil_2]. Defined.

Lemma add_hash_new_appends_witness :
  records (add_hash 100 "aa" "http://a/x.pdf" world_fresh).2 =
    (records world_fresh ++
     [{| hash := "aa"; source_url := "http://a/x.pdf"; first_seen_utc := 100 |}])%list.
Proof.
  apply (add_hash_new_appends world_fresh 100 "aa" "http://a/x.pdf").
  - exact world_fresh_initialised.
  - vm_compute. reflexivity.
Defined.

Lemma add_hash_other_hashes_witness :
  (hash_exists "aa" (add_hash 200 "bb" "http://b/y.pdf" world_one).2).1 =
  (hash_exists "aa" world_one).1.
Proof. apply add_hash_other_hashes. discriminate. Defined.

Lemma add_hashes_lifecycle_witness :
  store_ready (add_hashes [(1%Z, "aa", "http://a/1.pdf"); (2%Z, "aa", "http://a/2.pdf")]
                          world_fresh).
Proof.
  apply (add_hashes_lifecycle
           [(1%Z, "aa", "http://a/1.pdf"); (2%Z, "aa", "http://a/2.pdf")] world_fresh).
  exact world_fresh_ready.
Defined.

Lemma store_operations_without_table_witness :
  (hash_exists "aa" world_empty).1 = Raise OperationalError /\
  (add_hash 1 "aa" "http://a/1.pdf" world_empty).1 = Raise OperationalError.
Proof.
  destruct (store_operations_without_table world_empty 1%Z "aa" "http://a/1.pdf")
    as (H1 & H2 & _); [reflexivity|].
  split; [exact H1|exact H2].
Defined.

Lemma first_insertion_wins_witness :
  records_with "aa"
    (records (add_hashes ([(1%Z, "bb", "http://b/1.pdf")] ++
                          (2%Z, "aa", "http://a/2.pdf") :: [(3%Z, "aa", "http://a/3.pdf")])
                         world_fresh))
  = [{| hash := "aa"; source_url := "http://a/2.pdf"; first_seen_utc := 2 |}].
Proof.
  apply first_insertion_wins.
  - exact world_fresh_initialised.
  - vm_compute. reflexivity.
  - apply Forall_cons. split; [discriminate|apply Forall_nil_2].
Defined.

Lemma get_pdf_links_only_pdf_hrefs_witness :
  (length ["https://h.test/dir/a.pdf"] <= length (hrefs (sample_parser four_anchors_text)))%nat.
Proof.
  apply (get_pdf_links_only_pdf_hrefs sample_parser Urllib.urlparse_path Urllib.urljoin
           "https://h.test/dir/page.html" sample_kwargs 200 four_anchors_text).
  vm_compute. reflexivity.
Defined.

Lemma download_pdf_broken_body_leaves_partial_file_witness :
  (download_pdf "https://x.test/a.pdf" "pdf_downloads/a.pdf" sample_kwargs
                (StreamResponse 200 sample_body (Some RequestError)) world_empty).1
  = Ok None.
Proof.
  apply (download_pdf_broken_body_leaves_partial_file
           "https://x.test/a.pdf" "pdf_downloads/a.pdf" sample_kwargs 200 sample_body
           RequestError world_empty).
  - eexists. reflexivity.
  - reflexivity.
  - vm_compute. reflexivity.
Defined.

Lemma download_pdf_needs_directory_part_witness :
  download_pdf "https://x.test/a.pdf" "a.pdf" sample_kwargs
               (StreamResponse 200 sample_body None) world_empty
  = (Ok None, world_empty).
Proof.
  apply (download_pdf_needs_directory_part "https://x.test/a.pdf" "a.pdf" sample_kwargs).
  - eexists. reflexivity.
  - reflexivity.
Defined.

Lemma sample_uuids_distinct : distinct_uuids sample_uuid4 (length sample_links).
Proof.
  unfold distinct_uuids.
  replace (length sample_links) with 2%nat by (vm_compute; reflexivity).
  simpl. apply NoDup_cons. split; [|apply NoDup_singleton].
  intros Hin. apply list_elem_of_In in Hin. simpl in Hin.
  destruct Hin as [Heq|[]]. discriminate Heq.
Defined.

Lemma main_keeps_downloads_witness :
  exists pdfs_72hrs w2,
    fetch_all "Mozilla/5.0" sample_stream sample_uuid4 0 sample_links
              (startup None world_empty).2 = (Ok pdfs_72hrs, w2) /\
    files (sample_main world_empty).2 = files w2.
Proof.
  destruct (main_keeps_downloads
              sample_parser Urllib.urlparse_path Urllib.urljoin "Mozilla/5.0" None
              (Response 200 schedule_page_text) sample_stream sample_uuid4 sample_now
              world_empty (startup None world_empty).2)
    as (pdfs & w2 & Hfetch & _ & Hfiles & _).
  - exact sample_uuids_distinct.
  - vm_compute. reflexivity.
  - exists pdfs, w2. split; [exact Hfetch|exact Hfiles].
Defined.

Lemma main_seen_before_adds_nothing_witness :
  (sample_main world_after_run).1 = Ok tt /\
  records (sample_main world_after_run).2 = records (startup None world_after_run).2.
Proof.
  destruct (main_seen_before_adds_nothing
              sample_parser Urllib.urlparse_path Urllib.urljoin "Mozilla/5.0" None
              (Response 200 schedule_page_text) sample_stream sample_uuid4 sample_now
              world_after_run (startup None world_after_run).2)
    as (H1 & H2 & _).
  - exact sample_uuids_distinct.
  - vm_compute. reflexivity.
  - intros [|k] url status_code chunks _ Hs Hok; simpl in Hs.
    + injection Hs as <- <-. vm_compute. reflexivity.
    + injection Hs as <- <-. discriminate Hok.
  - split; [exact H1|exact H2].
Defined.



Lemma main_barred_by_file_witness :
  (sample_main world_barred).1 = Raise OSError /\
  files (sample_main world_barred).2 = files world_barred.
Proof.
  destruct (main_barred_by_file
              sample_parser Urllib.urlparse_path Urllib.urljoin "Mozilla/5.0" None
              (Response 200 schedule_page_text) sample_stream sample_uuid4 sample_now
              world_barred []) as (H1 & H2 & _ & H4).
  - reflexivity.
  - split; [|exact H4]. unfold sample_main. rewrite H2. exact H1.
Defined.

Lemma setup_logging_console_threshold_witness :
  Logging.handled_by (Logging.setup_logging Logging.fresh_root) Logging.WARNING
  = [Logging.console_handler].
Proof.
  destruct (setup_logging_console_threshold Logging.fresh_root Logging.WARNING eq_refl)
    as [H _].
  exact H.
Defined.
